(** * QueryStringManager of flask_combo_jsonapi/querystring.py

    A shallow embedding of the JSON:API querystring parser and the
    properties its specification states about it.  Python dictionaries are
    association lists in insertion order (the order in which [items()]
    yields them decides which error is raised first); exceptions are the
    [Raise] branch of a result type.  Strings are byte strings and stand
    for ASCII text. *)

From Stdlib Require Import String Ascii List ZArith Lia Bool.
From Stdlib Require Import DecimalString DecimalZ DecimalPos Permutation.
Import ListNotations.

Local Open Scope string_scope.
Local Open Scope list_scope.

(** ** Python string primitives used by the module *)

Module Py.

(** [key.startswith(name)] *)
Definition startswith (name key : string) : bool := String.prefix name key.

(** [key.startswith(names)] with a tuple of names *)
Definition startswith_any (names : list string) (key : string) : bool :=
  existsb (fun n => startswith n key) names.

(** [s.index(c)] for a one-character [c]; [None] is the ValueError *)
Fixpoint index (c : ascii) (s : string) : option nat :=
  match s with
  | EmptyString => None
  | String a r => if Ascii.eqb a c then Some 0 else option_map S (index c r)
  end.

(** [s[a:b]] for non-negative [a], [b] *)
Definition slice (a b : nat) (s : string) : string := String.substring a (b - a) s.

(** [sub in s] *)
Fixpoint contains (sub s : string) : bool :=
  String.prefix sub s ||
  match s with
  | EmptyString => false
  | String _ r => contains sub r
  end.

(** [s.split(sep)] for a non-empty separator.  [skip] counts the characters
    of a separator occurrence that are still to be passed over, [cur] is the
    segment read so far. *)
Fixpoint split_go (sep : string) (skip : nat) (cur : string) (s : string) : list string :=
  match s with
  | EmptyString => [cur]
  | String c r =>
      match skip with
      | S k => split_go sep k cur r
      | O =>
          if String.prefix sep s
          then cur :: split_go sep (String.length sep - 1) EmptyString r
          else split_go sep 0 (cur ++ String c EmptyString)%string r
      end
  end.

Definition split (sep s : string) : list string := split_go sep 0 EmptyString s.

(** [s.replace(old, new)] for a non-empty [old] *)
Fixpoint replace_go (old new : string) (skip : nat) (s : string) : string :=
  match s with
  | EmptyString => EmptyString
  | String c r =>
      match skip with
      | S k => replace_go old new k r
      | O =>
          if String.prefix old s
          then (new ++ replace_go old new (String.length old - 1) r)%string
          else String c (replace_go old new 0 r)
      end
  end.

Definition replace (old new s : string) : string := replace_go old new 0 s.

(** Iterating a string of ASCII text yields its characters as
    one-character strings. *)
Definition chars (s : string) : list string :=
  map (fun c => String c EmptyString) (list_ascii_of_string s).

(** [str(n)] of an integer *)
Definition str (n : Z) : string := NilZero.string_of_int (Z.to_int n).

(** Whitespace [int] removes around an ASCII literal: tab, line feed,
    vertical tab, form feed, carriage return and space. *)
Definition is_space (c : ascii) : bool :=
  let n := nat_of_ascii c in
  (Nat.leb 9 n && Nat.leb n 13) || Nat.eqb n 32.

Definition is_digit (c : ascii) : bool :=
  let n := nat_of_ascii c in Nat.leb 48 n && Nat.leb n 57.

Fixpoint lstrip (s : string) : string :=
  match s with
  | EmptyString => EmptyString
  | String c r => if is_space c then lstrip r else s
  end.

Fixpoint rstrip (s : string) : string :=
  match s with
  | EmptyString => EmptyString
  | String c r =>
      match rstrip r with
      | EmptyString => if is_space c then EmptyString else String c EmptyString
      | r' => String c r'
      end
  end.

Definition strip (s : string) : string := lstrip (rstrip s).

(** The digits of an integer literal: at least one digit, single
    underscores allowed between digits only. *)
Fixpoint digits_of (after_digit : bool) (s : string) : option string :=
  match s with
  | EmptyString => if after_digit then Some EmptyString else None
  | String c r =>
      if is_digit c then option_map (String c) (digits_of true r)
      else if Ascii.eqb c "_" && after_digit then digits_of false r
      else None
  end.

(** The default of [sys.get_int_max_str_digits()]: [int] refuses a decimal
    literal with more digits, underscores not counted. *)
Definition max_str_digits : nat := 4300.

Definition nat_literal (s : string) : option Z :=
  match digits_of false s with
  | Some d =>
      if Nat.ltb max_str_digits (String.length d) then None
      else option_map Z.of_uint (NilZero.uint_of_string d)
  | None => None
  end.

(** [int(s)] on a string of ASCII text, base 10; [None] is the ValueError *)
Definition int (s : string) : option Z :=
  match strip s with
  | String "-" r => option_map Z.opp (nat_literal r)
  | String "+" r => nat_literal r
  | t => nat_literal t
  end.

End Py.

(** ** Exceptions and results *)

Inductive exn : Type :=
| BadRequest (detail : string) (parameter : string)
| InvalidFilters (detail : string)
| InvalidSort (detail : string)
| InvalidField (detail : string)
| InvalidInclude (detail : string)
| TypeError
| ValueError
| RecursionError
| RegistryError (type_ : string).

Inductive result (A : Type) : Type :=
| Ok (a : A)
| Raise (e : exn).

Arguments Ok {A} a.
Arguments Raise {A} e.

Definition bind {A B : Type} (r : result A) (k : A -> result B) : result B :=
  match r with
  | Ok a => k a
  | Raise e => Raise e
  end.

Notation "x <- r ;; k" := (bind r (fun x => k))
  (at level 61, r at next level, right associativity).

(** ** Dictionaries in insertion order *)

Definition dict (V : Type) : Type := list (string * V).

Fixpoint dict_get {V : Type} (k : string) (d : dict V) : option V :=
  match d with
  | [] => None
  | (k', v) :: r => if String.eqb k' k then Some v else dict_get k r
  end.

Definition dict_mem {V : Type} (k : string) (d : dict V) : bool :=
  match dict_get k d with Some _ => true | None => false end.

(** [d.update({k: v})]: an existing key keeps its place and takes the new
    value, a new key goes last. *)
Fixpoint dict_update {V : Type} (k : string) (v : V) (d : dict V) : dict V :=
  match d with
  | [] => [(k, v)]
  | (k', v') :: r =>
      if String.eqb k' k then (k', v) :: r else (k', v') :: dict_update k v r
  end.

(** [d.setdefault(k, v)] *)
Definition dict_setdefault {V : Type} (k : string) (v : V) (d : dict V) : dict V :=
  if dict_mem k d then d else d ++ [(k, v)].

(** The raw querystring: string keys, string values. *)
Definition querystring_t : Type := dict string.

(** ** Bracketed-group extraction *)

(** A value of a bracketed group: the raw string, or its comma-separated
    parts when it holds a comma. *)
Inductive item_value : Type :=
| Scalar (s : string)
| Multi (l : list string).

Definition item_value_of (value : string) : item_value :=
  if Py.contains "," value then Multi (Py.split "," value) else Scalar value.

(** The body of the [try] for one key that starts with the name. *)
Definition parse_item (key value : string) : result (string * item_value) :=
  match Py.index "[" key with
  | None => Raise (BadRequest "Parse error" key)
  | Some i =>
      match Py.index "]" key with
      | None => Raise (BadRequest "Parse error" key)
      | Some key_end => Ok (Py.slice (i + 1) key_end key, item_value_of value)
      end
  end.

Fixpoint get_key_values_from (name : string) (qs : querystring_t)
    (results : dict item_value) : result (dict item_value) :=
  match qs with
  | [] => Ok results
  | (key, value) :: rest =>
      if negb (Py.startswith name key) then get_key_values_from name rest results
      else
        item <- parse_item key value ;;
        get_key_values_from name rest (dict_update (fst item) (snd item) results)
  end.

Definition _get_key_values (name : string) (qs : querystring_t) : result (dict item_value) :=
  get_key_values_from name qs [].

(** ** Configuration and schema descriptors *)

(** The keys of [current_app.config] the module reads; [None] is an unset key. *)
Record Config : Type := {
  PAGE_SIZE : option Z;
  ALLOW_DISABLE_PAGINATION : option bool;
  MAX_PAGE_SIZE : option Z;
  MAX_INCLUDE_DEPTH : option Z
}.

Definition default_config : Config :=
  {| PAGE_SIZE := None; ALLOW_DISABLE_PAGINATION := None;
     MAX_PAGE_SIZE := None; MAX_INCLUDE_DEPTH := None |}.

(** [config.get(key, default)] *)
Definition config_get {A : Type} (v : option A) (default : A) : A :=
  match v with Some a => a | None => default end.

(** Modelled from the spec: the schema class and the helpers
    [get_relationships] and [get_model_field] of flask_combo_jsonapi.schema
    are not among the sources.  A descriptor carries the capabilities the
    specification lists: type name, declared field names, relationship
    field names and alias resolution to the storage name. *)
Record Schema : Type := {
  __name__ : string;
  _declared_fields : list string;
  relationship_fields : list string;
  model_field : string -> string
}.

Definition get_relationships (schema : Schema) : list string := relationship_fields schema.

Definition get_model_field (schema : Schema) (field : string) : string :=
  model_field schema field.

(** Modelled from the spec: the registry lookup [get_schema_from_type] is
    not among the sources; it resolves a type name to a descriptor or fails
    with a no-such-type condition. *)
Definition Registry : Type := string -> option Schema.

Definition get_schema_from_type (registry : Registry) (type_ : string) : result Schema :=
  match registry type_ with
  | Some schema => Ok schema
  | None => Raise (RegistryError type_)
  end.

(** Modelled from the spec: the constant [SPLIT_REL] of
    flask_combo_jsonapi.utils is not among the sources; the specification
    writes relationship paths with a dot, as in include=author.comments. *)
Definition SPLIT_REL : string := ".".

(** [x in l] on a list or on the keys of a dict of names *)
Definition mem (x : string) (l : list string) : bool :=
  existsb (String.eqb x) l.

(** ** Pagination *)

(** [int(value)] inside the [try]: a string that is no integer literal is
    the ValueError the handler turns into BadRequest; a list is a
    TypeError, which the handler does not catch. *)
Definition coerce_page_value (key : string) (value : item_value) : result Z :=
  match value with
  | Scalar s =>
      match Py.int s with
      | Some n => Ok n
      | None => Raise (BadRequest "Parse error" ("page[" ++ key ++ "]"))
      end
  | Multi _ => Raise TypeError
  end.

(** The loop over [result.items()], entry by entry. *)
Fixpoint check_page_values (items : dict item_value) : result (dict Z) :=
  match items with
  | [] => Ok []
  | (key, value) :: rest =>
      if negb (mem key ["number"; "size"])
      then Raise (BadRequest (key ++ " is not a valid parameter of pagination") "page")
      else
        n <- coerce_page_value key value ;;
        r <- check_page_values rest ;;
        Ok ((key, n) :: r)
  end.

Definition is_false (v : option bool) : bool :=
  match v with Some false => true | _ => false end.

Definition check_page_policy (cfg : Config) (result_ : dict Z) : result (dict Z) :=
  if is_false (ALLOW_DISABLE_PAGINATION cfg)
     && match dict_get "size" result_ with Some sz => Z.eqb sz 0 | None => false end
  then Raise (BadRequest "You are not allowed to disable pagination" "page[size]")
  else
    match MAX_PAGE_SIZE cfg, dict_get "size" result_ with
    | Some m, Some sz =>
        if Z.ltb m sz
        then Raise (BadRequest ("Maximum page size is " ++ Py.str m) "page[size]")
        else Ok result_
    | _, _ => Ok result_
    end.

Definition pagination (cfg : Config) (qs : querystring_t) : result (dict Z) :=
  items <- _get_key_values "page" qs ;;
  result_ <- check_page_values items ;;
  check_page_policy cfg (dict_setdefault "size" (config_get (PAGE_SIZE cfg) 30%Z) result_).

(** ** Sparse fieldsets *)

Definition as_list (value : item_value) : list string :=
  match value with
  | Scalar s => [s]
  | Multi l => l
  end.

Fixpoint check_declared (schema : Schema) (value : list string) : result unit :=
  match value with
  | [] => Ok tt
  | obj :: rest =>
      if negb (mem obj (_declared_fields schema))
      then Raise (InvalidField (__name__ schema ++ " has no attribute " ++ obj))
      else check_declared schema rest
  end.

Fixpoint check_fields (registry : Registry) (result_ : dict (list string)) : result unit :=
  match result_ with
  | [] => Ok tt
  | (key, value) :: rest =>
      schema <- get_schema_from_type registry key ;;
      _ <- check_declared schema value ;;
      check_fields registry rest
  end.

Definition fields (registry : Registry) (qs : querystring_t) : result (dict (list string)) :=
  items <- _get_key_values "fields" qs ;;
  let result_ := map (fun kv => (fst kv, as_list (snd kv))) items in
  _ <- check_fields registry result_ ;;
  Ok result_.

(** ** Sorting *)

Inductive order_t : Type := asc | desc.

Record sort_directive : Type := { field : string; order : order_t }.

Definition sort_token (schema : Schema) (sort_field : string) : result sort_directive :=
  let field0 := Py.replace "-" "" sort_field in
  let order_ := if Py.startswith "-" sort_field then desc else asc in
  if negb (Py.contains SPLIT_REL field0) then
    if negb (mem field0 (_declared_fields schema))
    then Raise (InvalidSort (__name__ schema ++ " has no attribute " ++ field0))
    else if mem field0 (get_relationships schema)
    then Raise (InvalidSort ("You can't sort on " ++ field0
                             ++ " because it is a relationship field"))
    else Ok {| field := get_model_field schema field0; order := order_ |}
  else Ok {| field := field0; order := order_ |}.

Fixpoint sort_tokens (schema : Schema) (tokens : list string) : result (list sort_directive) :=
  match tokens with
  | [] => Ok []
  | sort_field :: rest =>
      d <- sort_token schema sort_field ;;
      r <- sort_tokens schema rest ;;
      Ok (d :: r)
  end.

(** [if self.qs.get('sort')]: the key is present and its value is not the
    empty string. *)
Definition sorting (schema : Schema) (qs : querystring_t) : result (list sort_directive) :=
  match dict_get "sort" qs with
  | Some (String c r) => sort_tokens schema (Py.split "," (String c r))
  | _ => Ok []
  end.

(** ** Include *)

(** The loop [for include_path in include_param] runs over the value of
    the [include] key as the source holds it: a string, whose iteration
    yields its characters. *)
Fixpoint check_include_depth (max_depth : Z) (paths : list string) : result unit :=
  match paths with
  | [] => Ok tt
  | include_path :: rest =>
      if Z.ltb max_depth (Z.of_nat (List.length (Py.split SPLIT_REL include_path)))
      then Raise (InvalidInclude ("You can't use include through more than "
                                  ++ Py.str max_depth ++ " relationships"))
      else check_include_depth max_depth rest
  end.

Definition include (cfg : Config) (qs : querystring_t) : result (list string) :=
  let include_param := dict_get "include" qs in
  _ <- match MAX_INCLUDE_DEPTH cfg, include_param with
       | Some max_depth, Some s => check_include_depth max_depth (Py.chars s)
       | _, _ => Ok tt
       end ;;
  Ok (match include_param with
      | Some (String c r) => Py.split "," (String c r)
      | _ => []
      end).

(** ** Filters *)

(** Values decoded from JSON, which are also the Python values a filter
    list holds. *)
#[local] Set Warnings "-register-all".
Inductive json : Type :=
| JNull
| JBool (b : bool)
| JInt (n : Z)
| JFloat (lexeme : string)
| JStr (s : string)
| JArr (items : list json)
| JObj (members : list (string * json)).

(** What [results.extend(v)] appends: the items of a list, the keys of a
    dict, the characters of a string; any other value is not iterable and
    raises TypeError ([None]). *)
Definition iterate (v : json) : option (list json) :=
  match v with
  | JArr items => Some items
  | JObj members => Some (map (fun kv => JStr (fst kv)) members)
  | JStr s => Some (map JStr (Py.chars s))
  | _ => None
  end.

Definition json_of_item_value (v : item_value) : json :=
  match v with
  | Scalar s => JStr s
  | Multi l => JArr (map JStr l)
  end.

Definition _simple_filters (dict_ : dict item_value) : list json :=
  map (fun kv => JObj [("name", JStr (fst kv)); ("op", JStr "eq");
                       ("val", json_of_item_value (snd kv))]) dict_.

Definition nonempty {A : Type} (l : list A) : bool :=
  match l with [] => false | _ => true end.

Section Filters.

(** [json.loads] of the simplejson library: it returns the decoded value or
    raises, a ValueError on text that is no JSON, a RecursionError on text
    nested too deep for the interpreter. *)
Variable loads : string -> result json.

(** The [try] around [results.extend(json.loads(filters))]: ValueError and
    TypeError become InvalidFilters, any other exception propagates. *)
Definition load_filters (filters_ : string) : result (list json) :=
  match loads filters_ with
  | Ok v =>
      match iterate v with
      | None => Raise (InvalidFilters "Parse error")
      | Some l => Ok l
      end
  | Raise ValueError | Raise TypeError => Raise (InvalidFilters "Parse error")
  | Raise e => Raise e
  end.

Definition filters (qs : querystring_t) : result (list json) :=
  results <- match dict_get "filter" qs with
             | Some filters_ => load_filters filters_
             | None => Ok []
             end ;;
  group <- _get_key_values "filter[" qs ;;
  if nonempty group
  then group' <- _get_key_values "filter[" qs ;; Ok (results ++ _simple_filters group')
  else Ok results.

End Filters.

(** ** Managed querystring *)

Definition MANAGED_KEYS : list string :=
  ["filter"; "page"; "fields"; "sort"; "include"; "q"].

(** The condition of the comprehension for one key of [qs]; [or] evaluates
    its second operand only when the first is false. *)
Definition is_managed (qs : querystring_t) (key : string) : result bool :=
  if Py.startswith_any MANAGED_KEYS key then Ok true
  else group <- _get_key_values "filter[" qs ;; Ok (nonempty group).

Fixpoint querystring_from (qs items : querystring_t) : result querystring_t :=
  match items with
  | [] => Ok []
  | (key, value) :: rest =>
      keep <- is_managed qs key ;;
      r <- querystring_from qs rest ;;
      Ok (if keep : bool then (key, value) :: r else r)
  end.

Definition querystring (qs : querystring_t) : result querystring_t :=
  querystring_from qs qs.

(** ** A reference JSON decoder

    [filters] is stated over any decoder.  The closed examples below run it
    with this recursive-descent decoder of RFC 8259 texts, on ASCII text;
    unicode escapes and the NaN and Infinity literals simplejson also reads
    are outside the fragment it covers and are rejected. *)

Module Json.

Definition dquote : ascii := "034"%char.
Definition backslash : ascii := "092"%char.

Definition is_ws (c : ascii) : bool :=
  Ascii.eqb c " " || Ascii.eqb c "009" || Ascii.eqb c "010" || Ascii.eqb c "013".

Fixpoint skip_ws (s : string) : string :=
  match s with
  | String c r => if is_ws c then skip_ws r else s
  | EmptyString => s
  end.

(** The longest run of digits at the head of [s], and what follows it. *)
Fixpoint take_digits (s : string) : string * string :=
  match s with
  | String c r =>
      if Py.is_digit c
      then let (d, rest) := take_digits r in (String c d, rest)
      else (EmptyString, s)
  | EmptyString => (EmptyString, s)
  end.

Definition expect (lit : string) (v : json) (s : string) : option (json * string) :=
  if String.prefix lit s
  then Some (v, String.substring (String.length lit) (String.length s) s)
  else None.

Definition unescape (c : ascii) : option ascii :=
  if Ascii.eqb c dquote then Some dquote
  else if Ascii.eqb c backslash then Some backslash
  else if Ascii.eqb c "/" then Some "/"%char
  else if Ascii.eqb c "b" then Some "008"%char
  else if Ascii.eqb c "f" then Some "012"%char
  else if Ascii.eqb c "n" then Some "010"%char
  else if Ascii.eqb c "r" then Some "013"%char
  else if Ascii.eqb c "t" then Some "009"%char
  else None.

(** The characters of a string literal after its opening quote. *)
Fixpoint parse_string (s : string) : option (string * string) :=
  match s with
  | EmptyString => None
  | String c r =>
      if Ascii.eqb c dquote then Some (EmptyString, r)
      else if Ascii.eqb c backslash then
        match r with
        | String e r' =>
            match unescape e, parse_string r' with
            | Some a, Some (t, rest) => Some (String a t, rest)
            | _, _ => None
            end
        | EmptyString => None
        end
      else if Nat.ltb (nat_of_ascii c) 32 then None
      else
        match parse_string r with
        | Some (t, rest) => Some (String c t, rest)
        | None => None
        end
  end.

Definition parse_fraction (s : string) : option (string * string) :=
  match s with
  | String "." r =>
      match take_digits r with
      | (EmptyString, _) => None
      | (d, rest) => Some (String "." d, rest)
      end
  | _ => Some (EmptyString, s)
  end.

Definition parse_exponent (s : string) : option (string * string) :=
  match s with
  | String c r =>
      if Ascii.eqb c "e" || Ascii.eqb c "E" then
        let (sign, r') :=
          match r with
          | String "+" t => ("+", t)
          | String "-" t => ("-", t)
          | _ => (EmptyString, r)
          end in
        match take_digits r' with
        | (EmptyString, _) => None
        | (d, rest) => Some ((String c sign ++ d)%string, rest)
        end
      else Some (EmptyString, s)
  | EmptyString => Some (EmptyString, s)
  end.

Definition parse_number (s : string) : option (json * string) :=
  let (neg, s1) := match s with String "-" r => (true, r) | _ => (false, s) end in
  let int_part :=
    match s1 with
    | String "0" r => Some ("0", r)
    | _ => match take_digits s1 with
           | (EmptyString, _) => None
           | p => Some p
           end
    end in
  match int_part with
  | None => None
  | Some (d, s2) =>
      match parse_fraction s2 with
      | None => None
      | Some (f, s3) =>
          match parse_exponent s3 with
          | None => None
          | Some (e, s4) =>
              match f, e, NilZero.uint_of_string d with
              | EmptyString, EmptyString, Some u =>
                  Some (JInt (if neg then Z.opp (Z.of_uint u) else Z.of_uint u), s4)
              | _, _, _ =>
                  Some (JFloat ((if neg then "-" else EmptyString) ++ d ++ f ++ e)%string, s4)
              end
          end
      end
  end.

Fixpoint parse_value (fuel : nat) (s : string) {struct fuel} : option (json * string) :=
  match fuel with
  | O => None
  | S fuel' =>
      match skip_ws s with
      | EmptyString => None
      | String c r =>
          if Ascii.eqb c "n" then expect "null" JNull (String c r)
          else if Ascii.eqb c "t" then expect "true" (JBool true) (String c r)
          else if Ascii.eqb c "f" then expect "false" (JBool false) (String c r)
          else if Ascii.eqb c dquote then
            match parse_string r with
            | Some (t, rest) => Some (JStr t, rest)
            | None => None
            end
          else if Ascii.eqb c "[" then
            match skip_ws r with
            | String "]" rest => Some (JArr [], rest)
            | _ =>
                match parse_items fuel' r with
                | Some (l, rest) => Some (JArr l, rest)
                | None => None
                end
            end
          else if Ascii.eqb c "{" then
            match skip_ws r with
            | String "}" rest => Some (JObj [], rest)
            | _ =>
                match parse_members fuel' [] r with
                | Some (m, rest) => Some (JObj m, rest)
                | None => None
                end
            end
          else parse_number (String c r)
      end
  end

with parse_items (fuel : nat) (s : string) {struct fuel} : option (list json * string) :=
  match fuel with
  | O => None
  | S fuel' =>
      match parse_value fuel' s with
      | None => None
      | Some (v, s1) =>
          match skip_ws s1 with
          | String "]" rest => Some ([v], rest)
          | String "," rest =>
              match parse_items fuel' rest with
              | Some (l, rest') => Some (v :: l, rest')
              | None => None
              end
          | _ => None
          end
      end
  end

with parse_members (fuel : nat) (acc : dict json) (s : string) {struct fuel}
    : option (dict json * string) :=
  match fuel with
  | O => None
  | S fuel' =>
      match skip_ws s with
      | String c r =>
          if Ascii.eqb c dquote then
            match parse_string r with
            | None => None
            | Some (k, s1) =>
                match skip_ws s1 with
                | String ":" s2 =>
                    match parse_value fuel' s2 with
                    | None => None
                    | Some (v, s3) =>
                        let acc' := dict_update k v acc in
                        match skip_ws s3 with
                        | String "}" rest => Some (acc', rest)
                        | String "," rest => parse_members fuel' acc' rest
                        | _ => None
                        end
                    end
                | _ => None
                end
            end
          else None
      | EmptyString => None
      end
  end.

Definition loads (s : string) : option json :=
  match parse_value (2 * String.length s + 2) s with
  | Some (v, rest) =>
      match skip_ws rest with
      | EmptyString => Some v
      | _ => None
      end
  | None => None
  end.

(** The decoder as [filters] takes it: a text outside the grammar is the
    ValueError. *)
Definition decoder (s : string) : result json :=
  match loads s with
  | Some v => Ok v
  | None => Raise ValueError
  end.

(** A string literal: the text between two quotes. *)
Definition quoted (s : string) : string :=
  (String dquote s ++ String dquote EmptyString)%string.

End Json.

(** ** Vocabulary of the statements *)

Fixpoint all_digits (s : string) : bool :=
  match s with
  | EmptyString => true
  | String c r => Py.is_digit c && all_digits r
  end.

Definition has_prefix (name : string) (kv : string * string) : bool :=
  Py.startswith name (fst kv).

(** The entries of the querystring the pagination accessor reads. *)
Definition page_entries (qs : querystring_t) : querystring_t := filter (has_prefix "page") qs.

(** The raw entry [page[key]=n], when [n] is given. *)
Definition page_param (key : string) (n : option Z) : querystring_t :=
  match n with
  | Some n => [(("page[" ++ key ++ "]")%string, Py.str n)]
  | None => []
  end.

Definition page_item (key : string) (n : option Z) : dict Z :=
  match n with
  | Some n => [(key, n)]
  | None => []
  end.

(** No configured policy forbids the size [sz]. *)
Definition policy_permits (cfg : Config) (sz : Z) : Prop :=
  ~ (ALLOW_DISABLE_PAGINATION cfg = Some false /\ sz = 0%Z)
  /\ forall m, MAX_PAGE_SIZE cfg = Some m -> (sz <= m)%Z.

Definition managed (kv : string * string) : bool := Py.startswith_any MANAGED_KEYS (fst kv).

(** The field name the code recovers from a token, and its direction. *)
Definition field_name (sort_field : string) : string := Py.replace "-" "" sort_field.

Definition direction (sort_field : string) : order_t :=
  if Py.startswith "-" sort_field then desc else asc.

(** A schema for the examples: three declared fields, of which author is a
    relationship and created is stored as created_at. *)
Definition post_schema : Schema :=
  {| __name__ := "Post"; _declared_fields := ["title"; "created"; "author"];
     relationship_fields := ["author"];
     model_field := fun f => if String.eqb f "created" then "created_at" else f |}.

(** The fieldset map before validation: every value as a list. *)
Definition normalized (items : dict item_value) : dict (list string) :=
  map (fun kv => (fst kv, as_list (snd kv))) items.

Definition user_schema : Schema :=
  {| __name__ := "User"; _declared_fields := ["name"; "email"];
     relationship_fields := []; model_field := fun f => f |}.

Definition user_registry : Registry :=
  fun type_ => if String.eqb type_ "user" then Some user_schema else None.

(** A key holds both brackets the extractor looks for. *)
Definition well_bracketed (key : string) : bool :=
  match Py.index "[" key, Py.index "]" key with
  | Some _, Some _ => true
  | _, _ => false
  end.

(** [sep.join(parts)] *)
Definition join (sep : string) (parts : list string) : string := String.concat sep parts.

(** What the include accessor returns when no depth limit stops it. *)
Definition include_paths (qs : querystring_t) : list string :=
  match dict_get "include" qs with
  | Some (String c r) => Py.split "," (String c r)
  | _ => []
  end.

(** The directive [d] is what the sorting accessor emits for the token
    [t]: the direction of the token, and either the recovered name itself
    when it holds the relationship separator, or the storage name of a
    declared field that is no relationship. *)
Definition emitted_for (schema : Schema) (t : string) (d : sort_directive) : Prop :=
  order d = direction t
  /\ ((Py.contains SPLIT_REL (field_name t) = true /\ field d = field_name t)
      \/ (Py.contains SPLIT_REL (field_name t) = false
          /\ mem (field_name t) (_declared_fields schema) = true
          /\ mem (field_name t) (get_relationships schema) = false
          /\ field d = get_model_field schema (field_name t))).

(** The number of digits of the decimal text of an integer. *)
Definition decimal_digits (n : Z) : nat := String.length (Py.str (Z.abs n)).

(** The decimal text of a given number is short enough for [int]. *)
Definition readable (v : option Z) : Prop :=
  match v with
  | Some n => (decimal_digits n <= Py.max_str_digits)%nat
  | None => True
  end.

(** [n] zeros. *)
Fixpoint zeros (n : nat) : string :=
  match n with
  | O => EmptyString
  | S k => String "0" (zeros k)
  end.

(** * Properties *)

(** ** The operations on examples *)

Example split_ex : Py.split "," "a,,b" = ["a"; ""; "b"].
Proof. reflexivity. Qed.

Example replace_ex : Py.replace "-" "" "-a-b" = "ab".
Proof. reflexivity. Qed.

Example int_ex : Py.int " -1_000 " = Some (-1000)%Z /\ Py.int "1__0" = None /\ Py.int "" = None.
Proof. repeat split; reflexivity. Qed.

Example str_ex : Py.str 30 = "30" /\ Py.str 0 = "0" /\ Py.str (-7) = "-7".
Proof. repeat split; reflexivity. Qed.

Example gkv_ex :
  _get_key_values "page" [("page[number]", "2"); ("sort", "x"); ("pages[size]", "1,2")]
  = Ok [("number", Scalar "2"); ("size", Multi ["1"; "2"])].
Proof. reflexivity. Qed.

Example include_ex : include default_config [("include", "a,b.c")] = Ok ["a"; "b.c"].
Proof. reflexivity. Qed.

Example sorting_ex :
  sorting {| __name__ := "S"; _declared_fields := ["name"; "created"; "author"];
             relationship_fields := ["author"];
             model_field := fun f => ("col_" ++ f)%string |}
          [("sort", "-created,name")]
  = Ok [ {| field := "col_created"; order := desc |}; {| field := "col_name"; order := asc |} ].
Proof. reflexivity. Qed.

Example pagination_ex :
  pagination default_config [("page[number]", "25"); ("page[size]", "10")]
  = Ok [("number", 25%Z); ("size", 10%Z)].
Proof. reflexivity. Qed.

Example querystring_ex :
  querystring [("sort", "a"); ("foo", "1"); ("query", "x")] = Ok [("sort", "a"); ("query", "x")].
Proof. reflexivity. Qed.

Example loads_ex :
  Json.loads ("[{" ++ Json.quoted "name" ++ ":" ++ Json.quoted "age" ++ ","
              ++ Json.quoted "op" ++ ":" ++ Json.quoted "eq" ++ ","
              ++ Json.quoted "val" ++ ": 5}, 1.5e3, null, [true]]")%string
  = Some (JArr [JObj [("name", JStr "age"); ("op", JStr "eq"); ("val", JInt 5)];
                JFloat "1.5e3"; JNull; JArr [JBool true]]).
Proof. reflexivity. Qed.

Example loads_rejects :
  Json.loads "[1,]" = None /\ Json.loads "" = None /\ Json.loads "01" = None
  /\ Json.loads "{a:1}" = None /\ Json.loads "[1] x" = None.
Proof. repeat split; reflexivity. Qed.

Example filters_ex :
  filters Json.decoder [("filter", "[1]"); ("filter[age]", "5")]
  = Ok [JInt 1; JObj [("name", JStr "age"); ("op", JStr "eq"); ("val", JStr "5")]].
Proof. reflexivity. Qed.

(** ** Integer literals: [int(str(n)) == n] *)

Section IntStr.

Lemma digit_not_space c : Py.is_digit c = true -> Py.is_space c = false.
Proof.
  destruct c as [[|] [|] [|] [|] [|] [|] [|] [|]]; vm_compute; congruence.
Qed.

Lemma digit_not_sign c :
  Py.is_digit c = true -> c <> "-"%char /\ c <> "+"%char /\ c <> "_"%char.
Proof.
  destruct c as [[|] [|] [|] [|] [|] [|] [|] [|]]; vm_compute;
    intros H; try discriminate H; repeat split; discriminate.
Qed.

Lemma string_of_uint_digits d : all_digits (NilEmpty.string_of_uint d) = true.
Proof. induction d; simpl; auto. Qed.

Lemma string_of_uint_nonempty d : d <> Decimal.Nil -> NilEmpty.string_of_uint d <> EmptyString.
Proof. destruct d; simpl; congruence. Qed.

Lemma digits_of_all_digits s :
  all_digits s = true ->
  forall b, (s <> EmptyString \/ b = true) -> Py.digits_of b s = Some s.
Proof.
  induction s as [|c r IH]; simpl; intros Hd b Hb.
  - destruct Hb as [Hb | ->]; [now elim Hb | reflexivity].
  - apply andb_true_iff in Hd as [Hc Hr].
    rewrite Hc, (IH Hr true); auto.
Qed.

Lemma rstrip_digits s : all_digits s = true -> Py.rstrip s = s.
Proof.
  induction s as [|c r IH]; simpl; intros Hd; [reflexivity|].
  apply andb_true_iff in Hd as [Hc Hr].
  rewrite (IH Hr). destruct r; [|reflexivity].
  now rewrite (digit_not_space _ Hc).
Qed.

Lemma strip_digits s : all_digits s = true -> Py.strip s = s.
Proof.
  intros Hd. unfold Py.strip. rewrite (rstrip_digits _ Hd).
  destruct s as [|c r]; simpl in *; [reflexivity|].
  apply andb_true_iff in Hd as [Hc _].
  now rewrite (digit_not_space _ Hc).
Qed.

Lemma uint_of_string_to_uint p :
  NilZero.uint_of_string (NilEmpty.string_of_uint (Pos.to_uint p)) = Some (Pos.to_uint p).
Proof.
  pose proof (NilZero.usu (Pos.to_uint p) (DecimalPos.Unsigned.to_uint_nonnil p)) as Hu.
  unfold NilZero.string_of_uint in Hu.
  destruct (Pos.to_uint p) eqn:E; try exact Hu.
  now elim (DecimalPos.Unsigned.to_uint_nonnil p).
Qed.

Lemma nat_literal_to_uint p :
  (String.length (NilEmpty.string_of_uint (Pos.to_uint p)) <= Py.max_str_digits)%nat ->
  Py.nat_literal (NilEmpty.string_of_uint (Pos.to_uint p)) = Some (Z.pos p).
Proof.
  intros Hlen. unfold Py.nat_literal.
  rewrite digits_of_all_digits.
  - apply Nat.ltb_ge in Hlen. rewrite Hlen, uint_of_string_to_uint.
    cbn [option_map]. unfold Z.of_uint. now rewrite DecimalPos.Unsigned.of_to.
  - apply string_of_uint_digits.
  - left. apply string_of_uint_nonempty, DecimalPos.Unsigned.to_uint_nonnil.
Qed.

Lemma int_digits s :
  all_digits s = true -> Py.int s = Py.nat_literal s.
Proof.
  intros Hd. unfold Py.int. rewrite (strip_digits _ Hd).
  destruct s as [|c r]; [reflexivity|].
  simpl in Hd. apply andb_true_iff in Hd as [Hc _].
  destruct (digit_not_sign _ Hc) as (Hm & Hp & _).
  destruct c as [[|] [|] [|] [|] [|] [|] [|] [|]]; try reflexivity;
    solve [now elim Hm | now elim Hp].
Qed.

Lemma str_pos p : Py.str (Z.pos p) = NilEmpty.string_of_uint (Pos.to_uint p).
Proof.
  unfold Py.str; simpl. unfold NilZero.string_of_uint.
  destruct (Pos.to_uint p) eqn:E; try reflexivity.
  now elim (DecimalPos.Unsigned.to_uint_nonnil p).
Qed.

Lemma int_minus_digits s :
  all_digits s = true -> s <> EmptyString ->
  Py.int (String "-" s) = option_map Z.opp (Py.nat_literal s).
Proof.
  intros Hd Hne. unfold Py.int, Py.strip. simpl. rewrite (rstrip_digits _ Hd).
  destruct s as [|c r]; [now elim Hne | reflexivity].
Qed.

(** Python prints an integer in the form [int] reads back, as long as the
    text stays within the digit limit. *)
Lemma int_str (n : Z) :
  (decimal_digits n <= Py.max_str_digits)%nat -> Py.int (Py.str n) = Some n.
Proof.
  unfold decimal_digits. destruct n as [|p|p]; cbn [Z.abs]; intros Hlen.
  - reflexivity.
  - rewrite str_pos in *. rewrite int_digits by apply string_of_uint_digits.
    now apply nat_literal_to_uint.
  - change (Py.str (Z.neg p)) with (String "-" (Py.str (Z.pos p))).
    rewrite str_pos in *. rewrite int_minus_digits.
    + now rewrite nat_literal_to_uint.
    + apply string_of_uint_digits.
    + apply string_of_uint_nonempty, DecimalPos.Unsigned.to_uint_nonnil.
Qed.

(** No integer literal holds a comma. *)
Lemma digits_of_no_comma s : forall b d, Py.digits_of b s = Some d -> Py.contains "," s = false.
Proof.
  induction s as [|c r IH]; simpl; intros b d H; [reflexivity|].
  destruct (Py.is_digit c) eqn:Hc.
  - destruct (Py.digits_of true r) eqn:Hr; [|discriminate].
    rewrite (IH _ _ Hr).
    destruct c as [[|] [|] [|] [|] [|] [|] [|] [|]]; try reflexivity; discriminate Hc.
  - destruct (Ascii.eqb c "_" && b) eqn:Hu; [|discriminate].
    rewrite (IH _ _ H).
    apply andb_true_iff in Hu as [Hu _]. apply Ascii.eqb_eq in Hu. subst c. reflexivity.
Qed.

End IntStr.

(** ** Bracketed-group extraction: basic facts *)

Section KeyValues.

Variable name : string.

(** Keys that do not start with the name play no part. *)
Lemma get_key_values_from_filter qs : forall acc,
  get_key_values_from name qs acc = get_key_values_from name (filter (has_prefix name) qs) acc.
Proof.
  induction qs as [|[key value] rest IH]; intros acc; simpl; [reflexivity|].
  unfold has_prefix at 1; simpl.
  destruct (Py.startswith name key) eqn:E; simpl; rewrite ?E; simpl; [|apply IH].
  destruct (parse_item key value); simpl; [apply IH | reflexivity].
Qed.

Lemma get_key_values_filter qs :
  _get_key_values name qs = _get_key_values name (filter (has_prefix name) qs).
Proof. apply get_key_values_from_filter. Qed.

Lemma get_key_values_from_app qs1 qs2 : forall acc,
  get_key_values_from name (qs1 ++ qs2) acc =
  (acc1 <- get_key_values_from name qs1 acc ;; get_key_values_from name qs2 acc1).
Proof.
  induction qs1 as [|[key value] rest IH]; intros acc; simpl; [reflexivity|].
  destruct (Py.startswith name key); simpl; [|apply IH].
  destruct (parse_item key value); simpl; [apply IH | reflexivity].
Qed.

End KeyValues.

Lemma dict_get_update_same {V} k (v : V) d : dict_get k (dict_update k v d) = Some v.
Proof.
  induction d as [|[k' v'] r IH]; simpl.
  - now rewrite String.eqb_refl.
  - destruct (String.eqb k' k) eqn:E; simpl; rewrite E; auto.
Qed.

Lemma dict_get_update_other {V} k k' (v : V) d :
  k <> k' -> dict_get k (dict_update k' v d) = dict_get k d.
Proof.
  intros Hne. induction d as [|[k0 v0] r IH]; simpl.
  - destruct (String.eqb k' k) eqn:E; [apply String.eqb_eq in E; congruence | reflexivity].
  - destruct (String.eqb k0 k') eqn:E; simpl.
    + apply String.eqb_eq in E. subst k0.
      destruct (String.eqb k' k) eqn:E'; [apply String.eqb_eq in E'; congruence | reflexivity].
    + now rewrite IH.
Qed.

(** ** Pagination *)

Lemma str_no_comma n : Py.contains "," (Py.str n) = false.
Proof.
  destruct n as [|p|p]; [reflexivity| |].
  - rewrite str_pos. eapply digits_of_no_comma, digits_of_all_digits.
    + apply string_of_uint_digits.
    + now right.
  - change (Py.str (Z.neg p)) with (String "-" (Py.str (Z.pos p))).
    change (Py.contains "," (Py.str (Z.pos p)) = false).
    rewrite str_pos. eapply digits_of_no_comma, digits_of_all_digits.
    + apply string_of_uint_digits.
    + now right.
Qed.

Lemma item_value_of_str n : item_value_of (Py.str n) = Scalar (Py.str n).
Proof. unfold item_value_of. now rewrite str_no_comma. Qed.

Lemma check_page_policy_permits cfg r sz :
  dict_get "size" r = Some sz -> policy_permits cfg sz -> check_page_policy cfg r = Ok r.
Proof.
  intros Hsz [Hdis Hmax]. unfold check_page_policy. rewrite Hsz.
  destruct (is_false (ALLOW_DISABLE_PAGINATION cfg) && (sz =? 0)%Z) eqn:E.
  - apply andb_true_iff in E as [Ha Hz]. exfalso. apply Hdis. split.
    + destruct (ALLOW_DISABLE_PAGINATION cfg) as [[|]|]; simpl in Ha; congruence.
    + now apply Z.eqb_eq.
  - destruct (MAX_PAGE_SIZE cfg) as [m|] eqn:Em; [|reflexivity].
    specialize (Hmax m eq_refl).
    destruct (Z.ltb_spec m sz); [lia | reflexivity].
Qed.

(** The accessor on a querystring whose page entries are listed. *)
Lemma pagination_page_entries cfg qs :
  pagination cfg qs = pagination cfg (page_entries qs).
Proof.
  unfold pagination, page_entries. now rewrite (get_key_values_filter "page" qs).
Qed.

(** C6, as amended. When the page entries of the querystring are
    page[number]=N and page[size]=S, each present or absent and in either
    order, with N and S written in at most 4300 digits, and no configured
    policy forbids the resolved size, the pagination accessor returns
    exactly those numbers; a missing page[size] is resolved to the
    configured PAGE_SIZE, 30 when unset. *)
Theorem pagination_well_formed (cfg : Config) (qs : querystring_t) (number size : option Z) :
  let resolved := config_get size (config_get (PAGE_SIZE cfg) 30%Z) in
  readable number -> readable size ->
  Permutation (page_entries qs) (page_param "number" number ++ page_param "size" size) ->
  policy_permits cfg resolved ->
  exists r, pagination cfg qs = Ok r
            /\ Permutation r (page_item "number" number ++ [("size", resolved)]).
Proof.
  intros resolved Hnumber Hsize Hperm Hpol.
  rewrite pagination_page_entries.
  assert (Hfin : forall r, dict_get "size" r = Some resolved ->
                 exists r', check_page_policy cfg r = Ok r' /\ r' = r).
  { intros r Hr. exists r. split; [|reflexivity].
    now apply check_page_policy_permits with (sz := resolved). }
  destruct number as [n|], size as [s|]; cbn [readable] in Hnumber, Hsize;
    simpl in Hperm, resolved.
  - apply Permutation_sym, Permutation_length_2_inv in Hperm as [-> | ->];
      unfold pagination, _get_key_values; simpl; rewrite ?item_value_of_str; simpl;
      rewrite !int_str by assumption; unfold Py.slice, dict_setdefault; simpl;
      (edestruct Hfin as (r' & -> & ->); [reflexivity|]);
      eexists; split; try reflexivity.
    apply perm_swap.
  - apply Permutation_sym, Permutation_length_1_inv in Hperm as ->.
    unfold pagination, _get_key_values; simpl; rewrite ?item_value_of_str; simpl;
    rewrite !int_str by assumption; unfold Py.slice, dict_setdefault; simpl.
    edestruct Hfin as (r' & -> & ->); [reflexivity|]. eauto.
  - apply Permutation_sym, Permutation_length_1_inv in Hperm as ->.
    unfold pagination, _get_key_values; simpl; rewrite ?item_value_of_str; simpl;
    rewrite !int_str by assumption; unfold Py.slice, dict_setdefault; simpl.
    edestruct Hfin as (r' & -> & ->); [reflexivity|]. eauto.
  - apply Permutation_sym, Permutation_nil in Hperm as ->.
    unfold pagination, _get_key_values; simpl.
    unfold dict_setdefault; simpl.
    edestruct Hfin as (r' & -> & ->); [reflexivity|]. eauto.
Qed.

Lemma pagination_well_formed_witness :
  exists r, pagination default_config
              [("sort", "name"); ("page[size]", "10"); ("page[number]", "25")] = Ok r
            /\ Permutation r [("number", 25%Z); ("size", 10%Z)].
Proof.
  apply (pagination_well_formed default_config
           [("sort", "name"); ("page[size]", "10"); ("page[number]", "25")]
           (Some 25%Z) (Some 10%Z)).
  - apply Nat.leb_le. reflexivity.
  - apply Nat.leb_le. reflexivity.
  - simpl. apply perm_swap.
  - split.
    + intros [H _]. discriminate H.
    + intros m H. discriminate H.
Defined.

(** C6, as stated, fails on long numbers: the decimal text of 10^4300 has
    4301 digits, [int] refuses it with a ValueError, and the pagination
    accessor answers page[number]=10^4300 and page[size]=1 with BadRequest
    on page[number]. *)
Lemma pagination_rejects_long_number :
  Py.str (10 ^ 4300) = String "1" (zeros 4300)
  /\ page_entries [("page[number]", Py.str (10 ^ 4300)); ("page[size]", Py.str 1)]
     = page_param "number" (Some (10 ^ 4300)%Z) ++ page_param "size" (Some 1%Z)
  /\ policy_permits default_config 1
  /\ pagination default_config [("page[number]", Py.str (10 ^ 4300)); ("page[size]", Py.str 1)]
     = Raise (BadRequest "Parse error" "page[number]").
Proof.
  split; [vm_compute; reflexivity|]. split; [reflexivity|]. split.
  - split; [intros [H _]; discriminate H | intros m H; discriminate H].
  - vm_compute. reflexivity.
Qed.

(** [setdefault] leaves a size in the directive. *)
Lemma dict_get_setdefault {V} k (v : V) d :
  dict_get k (dict_setdefault k v d) = Some (config_get (dict_get k d) v).
Proof.
  unfold dict_setdefault, dict_mem.
  destruct (dict_get k d) as [x|] eqn:E; simpl; [exact E|].
  induction d as [|[k' v'] r IH]; simpl in *.
  - now rewrite String.eqb_refl.
  - destruct (String.eqb k' k); [discriminate | auto].
Qed.

(** C7. Once the page values are coerced and the size is defaulted, a
    resolved size of 0 fails with BadRequest when configuration forbids
    disabling pagination, and a resolved size above a configured
    MAX_PAGE_SIZE fails with BadRequest on page[size], whose message names
    the maximum whenever the first check has not already failed. *)
Theorem pagination_policy_checks (cfg : Config) (qs : querystring_t)
    (items : dict item_value) (result_ : dict Z) (size : Z) :
  _get_key_values "page" qs = Ok items ->
  check_page_values items = Ok result_ ->
  dict_get "size" (dict_setdefault "size" (config_get (PAGE_SIZE cfg) 30%Z) result_) = Some size ->
  (ALLOW_DISABLE_PAGINATION cfg = Some false -> size = 0%Z ->
     pagination cfg qs
     = Raise (BadRequest "You are not allowed to disable pagination" "page[size]"))
  /\ (forall m, MAX_PAGE_SIZE cfg = Some m -> (size > m)%Z ->
        (exists detail, pagination cfg qs = Raise (BadRequest detail "page[size]"))
        /\ (~ (ALLOW_DISABLE_PAGINATION cfg = Some false /\ size = 0%Z) ->
            pagination cfg qs
            = Raise (BadRequest ("Maximum page size is " ++ Py.str m) "page[size]"))).
Proof.
  intros Hitems Hvalues Hsize.
  unfold pagination. rewrite Hitems; simpl. rewrite Hvalues; simpl.
  unfold check_page_policy. rewrite Hsize.
  split.
  - intros -> ->. reflexivity.
  - intros m -> Hgt.
    assert (Hlt : (m <? size)%Z = true) by (apply Z.ltb_lt; lia).
    rewrite Hlt.
    destruct (is_false (ALLOW_DISABLE_PAGINATION cfg) && (size =? 0)%Z) eqn:E.
    + split; [eauto|]. intros Hn. exfalso. apply Hn.
      apply andb_true_iff in E as [Ha Hz]. apply Z.eqb_eq in Hz.
      destruct (ALLOW_DISABLE_PAGINATION cfg) as [[|]|]; simpl in Ha; try discriminate. auto.
    + split; eauto.
Qed.

Lemma pagination_policy_checks_witness :
  pagination {| PAGE_SIZE := Some 0%Z; ALLOW_DISABLE_PAGINATION := Some false;
                MAX_PAGE_SIZE := Some 100%Z; MAX_INCLUDE_DEPTH := None |}
             [("page[number]", "3")]
  = Raise (BadRequest "You are not allowed to disable pagination" "page[size]")
  /\ pagination {| PAGE_SIZE := None; ALLOW_DISABLE_PAGINATION := None;
                   MAX_PAGE_SIZE := Some 100%Z; MAX_INCLUDE_DEPTH := None |}
                [("page[size]", "101")]
     = Raise (BadRequest "Maximum page size is 100" "page[size]").
Proof.
  split.
  - apply (pagination_policy_checks
             {| PAGE_SIZE := Some 0%Z; ALLOW_DISABLE_PAGINATION := Some false;
                MAX_PAGE_SIZE := Some 100%Z; MAX_INCLUDE_DEPTH := None |}
             [("page[number]", "3")] [("number", Scalar "3")] [("number", 3%Z)] 0%Z);
      reflexivity.
  - refine (proj2 (proj2 (pagination_policy_checks
             {| PAGE_SIZE := None; ALLOW_DISABLE_PAGINATION := None;
                MAX_PAGE_SIZE := Some 100%Z; MAX_INCLUDE_DEPTH := None |}
             [("page[size]", "101")] [("size", Scalar "101")] [("size", 101%Z)] 101%Z
             eq_refl eq_refl eq_refl) 100%Z eq_refl _) _).
    + lia.
    + intros [H _]. discriminate H.
Defined.

(** A comma in the value of page[number] or page[size] makes the extracted
    value a list, and [int] of a list is a TypeError the handler of the
    loop does not catch. *)
Lemma pagination_comma_value cfg key value :
  mem key ["number"; "size"] = true ->
  Py.contains "," value = true ->
  pagination cfg [(("page[" ++ key ++ "]")%string, value)] = Raise TypeError.
Proof.
  intros Hkey Hcomma.
  assert (Hk : key = "number" \/ key = "size").
  { unfold mem in Hkey; simpl in Hkey.
    destruct (String.eqb_spec key "number"); [now left|].
    destruct (String.eqb_spec key "size"); [now right | discriminate]. }
  destruct Hk as [-> | ->]; unfold pagination, _get_key_values; simpl;
    unfold item_value_of; rewrite Hcomma; reflexivity.
Qed.

(** A comma-free value that is no integer literal is reported as
    BadRequest on its own parameter. *)
Lemma pagination_scalar_not_integer cfg key value :
  mem key ["number"; "size"] = true ->
  Py.contains "," value = false ->
  Py.int value = None ->
  pagination cfg [(("page[" ++ key ++ "]")%string, value)]
  = Raise (BadRequest "Parse error" ("page[" ++ key ++ "]")).
Proof.
  intros Hkey Hcomma Hint.
  assert (Hk : key = "number" \/ key = "size").
  { unfold mem in Hkey; simpl in Hkey.
    destruct (String.eqb_spec key "number"); [now left|].
    destruct (String.eqb_spec key "size"); [now right | discriminate]. }
  destruct Hk as [-> | ->]; unfold pagination, _get_key_values; simpl;
    unfold item_value_of; rewrite Hcomma; simpl; rewrite Hint; reflexivity.
Qed.

(** C5. On page[size]=1,2 the extractor yields the list of 1 and 2 and the
    pagination accessor ends in an uncaught TypeError, whatever the
    configuration: no BadRequest names page[size]. *)
Theorem pagination_list_value_type_error (cfg : Config) :
  _get_key_values "page" [("page[size]", "1,2")] = Ok [("size", Multi ["1"; "2"])]
  /\ pagination cfg [("page[size]", "1,2")] = Raise TypeError.
Proof.
  split; [reflexivity|].
  apply (pagination_comma_value cfg "size" "1,2"); reflexivity.
Qed.

(** ** Prefix matching of the extractor *)

Lemma dict_mem_update {V} sub k (v : V) d :
  dict_mem sub d = true \/ sub = k -> dict_mem sub (dict_update k v d) = true.
Proof.
  unfold dict_mem. intros H.
  destruct (String.eqb_spec sub k) as [->|Hne].
  - now rewrite dict_get_update_same.
  - rewrite dict_get_update_other by assumption. destruct H; [assumption | contradiction].
Qed.

Lemma get_key_values_from_mem name qs : forall acc group sub,
  get_key_values_from name qs acc = Ok group ->
  dict_mem sub acc = true -> dict_mem sub group = true.
Proof.
  induction qs as [|[key value] rest IH]; simpl; intros acc group sub Hrun Hmem.
  - now injection Hrun as <-.
  - destruct (Py.startswith name key); simpl in Hrun; [|eauto].
    destruct (parse_item key value) as [[sub' v']|e]; simpl in Hrun; [|discriminate].
    eapply IH; [eassumption|]. apply dict_mem_update. now left.
Qed.

Lemma get_key_values_from_get name qs : forall acc group sub v,
  get_key_values_from name qs acc = Ok group ->
  dict_get sub acc = Some v ->
  (forall k val sub' v', In (k, val) qs -> Py.startswith name k = true ->
                         parse_item k val = Ok (sub', v') -> sub' <> sub) ->
  dict_get sub group = Some v.
Proof.
  induction qs as [|[key value] rest IH]; simpl; intros acc group sub v Hrun Hget Hlater.
  - now injection Hrun as <-.
  - destruct (Py.startswith name key) eqn:Hp; simpl in Hrun.
    + destruct (parse_item key value) as [[sub' v']|e] eqn:Hitem; simpl in Hrun; [|discriminate].
      eapply IH; [eassumption | | intros; eapply Hlater; eauto].
      rewrite dict_get_update_other; [assumption|].
      intros ->. eapply Hlater; eauto.
    + eapply IH; [eassumption | assumption | intros; eapply Hlater; eauto].
Qed.

Lemma parse_item_value key value sub v :
  parse_item key value = Ok (sub, v) -> v = item_value_of value.
Proof.
  unfold parse_item.
  destruct (Py.index "[" key); [|discriminate].
  destruct (Py.index "]" key); [|discriminate].
  now intros [= _ <-].
Qed.

(** C10, as amended. The extractor selects raw keys by [startswith] alone:
    when extraction succeeds, every raw key that starts with the prefix
    text has its bracketed sub-key in the extracted group, bound to its
    value unless a later selected key yields the same sub-key.  So
    pages[number]=5 is consumed by the pagination accessor as a page
    number. *)
Theorem prefix_keys_are_extracted :
  (forall name qs1 key value qs2 group,
      Py.startswith name key = true ->
      _get_key_values name (qs1 ++ (key, value) :: qs2) = Ok group ->
      exists sub,
        parse_item key value = Ok (sub, item_value_of value)
        /\ dict_mem sub group = true
        /\ ((forall k v sub' v', In (k, v) qs2 -> Py.startswith name k = true ->
                                 parse_item k v = Ok (sub', v') -> sub' <> sub) ->
            dict_get sub group = Some (item_value_of value)))
  /\ Py.startswith "page" "pages[number]" = true
  /\ pagination default_config [("pages[number]", "5")] = Ok [("number", 5%Z); ("size", 30%Z)].
Proof.
  split; [|split; reflexivity].
  intros name qs1 key value qs2 group Hp Hrun.
  unfold _get_key_values in Hrun. rewrite get_key_values_from_app in Hrun.
  destruct (get_key_values_from name qs1 []) as [acc1|e]; simpl in Hrun; [|discriminate].
  rewrite Hp in Hrun; simpl in Hrun.
  destruct (parse_item key value) as [[sub v]|e] eqn:Hitem; simpl in Hrun; [|discriminate].
  pose proof (parse_item_value _ _ _ _ Hitem) as ->.
  exists sub. split; [reflexivity|]. split.
  - eapply get_key_values_from_mem; [eassumption|]. apply dict_mem_update. now right.
  - intros Hlater. eapply get_key_values_from_get; [eassumption | | assumption].
    apply dict_get_update_same.
Qed.

Lemma prefix_keys_are_extracted_witness :
  exists sub,
    parse_item "pages[size]" "7" = Ok (sub, item_value_of "7")
    /\ dict_mem sub [("number", Scalar "2"); ("size", Scalar "7")] = true
    /\ ((forall k v sub' v', In (k, v) [("sort", "name")] -> Py.startswith "page" k = true ->
                             parse_item k v = Ok (sub', v') -> sub' <> sub) ->
        dict_get sub [("number", Scalar "2"); ("size", Scalar "7")] = Some (item_value_of "7")).
Proof.
  apply (proj1 prefix_keys_are_extracted "page"
           [("page[number]", "2")] "pages[size]" "7" [("sort", "name")]
           [("number", Scalar "2"); ("size", Scalar "7")]); reflexivity.
Defined.

(** C10, as stated, fails on its second example: pagination[size] does not
    start with the text page, so the extractor skips it and the pagination
    accessor answers with the default size. *)
Lemma pagination_key_is_not_page_prefixed :
  Py.startswith "page" "pagination[size]" = false
  /\ _get_key_values "page" [("pagination[size]", "9")] = Ok []
  /\ pagination default_config [("pagination[size]", "9")] = Ok [("size", 30%Z)].
Proof. repeat split; reflexivity. Qed.

(** ** Managed querystring *)

Lemma filter_none {A} (f : A -> bool) l : (forall x, In x l -> f x = false) -> filter f l = [].
Proof.
  induction l as [|a l IH]; simpl; intros H; [reflexivity|].
  rewrite (H a) by now left. apply IH. intros x Hx. apply H. now right.
Qed.

Lemma querystring_from_group qs group : forall items,
  _get_key_values "filter[" qs = Ok group ->
  querystring_from qs items
  = Ok (if nonempty group then items else filter managed items).
Proof.
  intros items Hg. induction items as [|[key value] rest IH].
  - simpl. now destruct (nonempty group).
  - cbn [querystring_from filter]. rewrite IH.
    unfold is_managed. change (managed (key, value)) with (Py.startswith_any MANAGED_KEYS key).
    destruct (Py.startswith_any MANAGED_KEYS key); cbn [bind].
    + now destruct (nonempty group).
    + rewrite Hg. cbn [bind]. now destruct (nonempty group).
Qed.

(** Without any key that starts with filter[, the result is the entries
    whose key starts with a managed name. *)
Lemma querystring_without_filter_group qs :
  (forall kv, In kv qs -> Py.startswith "filter[" (fst kv) = false) ->
  querystring qs = Ok (filter managed qs).
Proof.
  intros Hno. unfold querystring.
  rewrite (querystring_from_group qs []); [reflexivity|].
  rewrite get_key_values_filter, filter_none; [reflexivity | exact Hno].
Qed.

(** With a well-formed filter[...] key present, every entry is returned. *)
Lemma querystring_with_filter_group qs group :
  _get_key_values "filter[" qs = Ok group -> nonempty group = true ->
  querystring qs = Ok qs.
Proof.
  intros Hg Hne. unfold querystring.
  rewrite (querystring_from_group qs group) by assumption. now rewrite Hne.
Qed.

(** C2. With filter[a]=1 in the querystring, the entry foo=bar is returned
    although foo starts with no managed name and is no filter[...]
    parameter. *)
Theorem querystring_keeps_unmanaged_key :
  Py.startswith_any MANAGED_KEYS "foo" = false
  /\ Py.startswith "filter[" "foo" = false
  /\ querystring [("filter[a]", "1"); ("foo", "bar")]
     = Ok [("filter[a]", "1"); ("foo", "bar")].
Proof. repeat split; reflexivity. Qed.

(** ** Include *)

Lemma split_char_length c : (List.length (Py.split SPLIT_REL (String c EmptyString)) <= 2)%nat.
Proof.
  destruct c as [[|] [|] [|] [|] [|] [|] [|] [|]]; vm_compute; lia.
Qed.

(** The loop of the depth check sees one character at a time, so from a
    maximum of 2 on it rejects nothing. *)
Lemma check_include_depth_chars max_depth s :
  (2 <= max_depth)%Z -> check_include_depth max_depth (Py.chars s) = Ok tt.
Proof.
  intros Hmax. unfold Py.chars.
  induction (list_ascii_of_string s) as [|c l IH]; simpl; [reflexivity|].
  pose proof (split_char_length c) as Hlen.
  destruct (Z.ltb_spec max_depth (Z.of_nat (List.length (Py.split SPLIT_REL (String c EmptyString)))));
    [lia | exact IH].
Qed.

(** The example of the specification: include=author.comments. *)
Lemma include_author_comments :
  (exists detail,
      include {| PAGE_SIZE := None; ALLOW_DISABLE_PAGINATION := None;
                 MAX_PAGE_SIZE := None; MAX_INCLUDE_DEPTH := Some 1%Z |}
              [("include", "author.comments")] = Raise (InvalidInclude detail))
  /\ include {| PAGE_SIZE := None; ALLOW_DISABLE_PAGINATION := None;
                MAX_PAGE_SIZE := None; MAX_INCLUDE_DEPTH := Some 2%Z |}
             [("include", "author.comments")] = Ok ["author.comments"]
  /\ include default_config [("include", "author.comments")] = Ok ["author.comments"].
Proof. split; [eexists; reflexivity | split; reflexivity]. Qed.

(** C1. The path a.b.c has three segments, yet with MAX_INCLUDE_DEPTH = 2
    the include accessor returns it: the check ran over the characters of
    the raw value, none of which splits into more than two segments. *)
Theorem include_depth_check_misses_path :
  List.length (Py.split SPLIT_REL "a.b.c") = 3%nat
  /\ Py.split "," "a.b.c" = ["a.b.c"]
  /\ include {| PAGE_SIZE := None; ALLOW_DISABLE_PAGINATION := None;
                MAX_PAGE_SIZE := None; MAX_INCLUDE_DEPTH := Some 2%Z |}
             [("include", "a.b.c")] = Ok ["a.b.c"].
Proof. repeat split; reflexivity. Qed.

(** ** Filters *)

(** C3. A JSON string and a JSON object under the filter key are valid
    JSON that is no array, yet the filters accessor raises nothing: the
    string is iterated character by character and the object key by key,
    and these are returned as the filters. *)
Lemma filters_accepts_json_string_and_object :
  Json.loads (Json.quoted "ab") = Some (JStr "ab")
  /\ filters Json.decoder [("filter", Json.quoted "ab")] = Ok [JStr "a"; JStr "b"]
  /\ Json.loads ("{" ++ Json.quoted "a" ++ ":1}")%string = Some (JObj [("a", JInt 1)])
  /\ filters Json.decoder [("filter", ("{" ++ Json.quoted "a" ++ ":1}")%string)] = Ok [JStr "a"].
Proof. repeat split; reflexivity. Qed.

(** Whatever the decoder, a filter value on which it raises ValueError, or
    which it decodes to a number, a boolean or null, makes the filters
    accessor fail with InvalidFilters. *)
Lemma filters_rejects_undecodable_or_scalar
    (loads : string -> result json) (qs : querystring_t) (payload : string) :
  dict_get "filter" qs = Some payload ->
  loads payload = Raise ValueError
  \/ (exists v, loads payload = Ok v
                /\ match v with
                   | JNull | JBool _ | JInt _ | JFloat _ => True
                   | JStr _ | JArr _ | JObj _ => False
                   end) ->
  filters loads qs = Raise (InvalidFilters "Parse error").
Proof.
  intros Hget Hbad. unfold filters, load_filters. rewrite Hget.
  destruct Hbad as [-> | (v & -> & Hv)]; [reflexivity|].
  destruct v; simpl; solve [reflexivity | contradiction].
Qed.

Example filters_rejects_number :
  filters Json.decoder [("filter", "5"); ("filter[age]", "5")]
  = Raise (InvalidFilters "Parse error").
Proof.
  apply (filters_rejects_undecodable_or_scalar Json.decoder
           [("filter", "5"); ("filter[age]", "5")] "5").
  - reflexivity.
  - right. exists (JInt 5). split; [reflexivity | exact I].
Qed.

(** ** Sorting *)

(** C4. Every hyphen of a token is removed, not only a leading one: the
    token author.first-name is emitted as author.firstname, and a declared
    field created-at is looked up as createdat and reported missing. *)
Theorem sorting_removes_interior_hyphens (schema : Schema) :
  sorting schema [("sort", "author.first-name")]
  = Ok [ {| field := "author.firstname"; order := asc |} ]
  /\ sorting {| __name__ := "Post"; _declared_fields := ["created-at"];
                relationship_fields := []; model_field := fun f => f |}
             [("sort", "-created-at")]
     = Raise (InvalidSort "Post has no attribute createdat").
Proof. split; reflexivity. Qed.

Lemma sort_tokens_all schema tokens : forall ds,
  Forall2 (fun t d => sort_token schema t = Ok d) tokens ds ->
  sort_tokens schema tokens = Ok ds.
Proof.
  induction tokens as [|t rest IH]; intros ds H; inversion H; subst; simpl.
  - reflexivity.
  - match goal with Ht : sort_token _ _ = Ok _ |- _ => rewrite Ht end.
    simpl. now erewrite IH by eassumption.
Qed.

Lemma sort_token_raises schema t e :
  sort_token schema t = Raise e -> exists detail, e = InvalidSort detail.
Proof.
  unfold sort_token.
  destruct (negb (Py.contains SPLIT_REL (Py.replace "-" "" t))); [|discriminate].
  destruct (negb (mem (Py.replace "-" "" t) (_declared_fields schema))).
  - intros [= <-]. eauto.
  - destruct (mem (Py.replace "-" "" t) (get_relationships schema)); [|discriminate].
    intros [= <-]. eauto.
Qed.

Lemma sort_tokens_raise schema tokens : forall t e,
  In t tokens -> sort_token schema t = Raise e ->
  exists detail, sort_tokens schema tokens = Raise (InvalidSort detail).
Proof.
  induction tokens as [|t0 rest IH]; intros t e Hin Ht; [contradiction|].
  simpl. destruct (sort_token schema t0) as [d|e0] eqn:E0; simpl.
  - destruct Hin as [-> | Hin]; [congruence|].
    destruct (IH _ _ Hin Ht) as (detail & ->). simpl. eauto.
  - destruct (sort_token_raises _ _ _ E0) as (detail & ->). eauto.
Qed.

(** The directives keep the order of the tokens, and a directive descends
    exactly when its token starts with a hyphen. *)
Lemma sort_tokens_directions schema tokens : forall ds,
  sort_tokens schema tokens = Ok ds -> map order ds = map direction tokens.
Proof.
  induction tokens as [|t rest IH]; simpl; intros ds H.
  - now injection H as <-.
  - destruct (sort_token schema t) as [d|e] eqn:Et; simpl in H; [|discriminate].
    destruct (sort_tokens schema rest) as [r|e]; simpl in H; [|discriminate].
    injection H as <-. simpl. rewrite (IH r eq_refl). f_equal.
    unfold sort_token in Et.
    repeat match type of Et with
           | (if ?b then _ else _) = _ => destruct b
           end; try discriminate; now injection Et as <-.
Qed.

(** C8. Without a sort key the sorting accessor returns the empty list.
    For a token whose recovered field name has no relationship separator,
    an undeclared field and a relationship field each raise InvalidSort,
    and any other field is emitted under its storage name; a token with
    the separator is emitted as it stands, with no look-up in the schema.
    The accessor returns the directives of its tokens in their order when
    all are accepted and fails with InvalidSort when one is not. *)
Theorem sorting_checks_tokens (schema : Schema) (qs : querystring_t) :
  (dict_get "sort" qs = None -> sorting schema qs = Ok [])
  /\ (forall t, Py.contains SPLIT_REL (field_name t) = false ->
        (mem (field_name t) (_declared_fields schema) = false ->
         sort_token schema t
         = Raise (InvalidSort (__name__ schema ++ " has no attribute " ++ field_name t)))
        /\ (mem (field_name t) (_declared_fields schema) = true ->
            mem (field_name t) (get_relationships schema) = true ->
            sort_token schema t
            = Raise (InvalidSort ("You can't sort on " ++ field_name t
                                  ++ " because it is a relationship field")))
        /\ (mem (field_name t) (_declared_fields schema) = true ->
            mem (field_name t) (get_relationships schema) = false ->
            sort_token schema t
            = Ok {| field := get_model_field schema (field_name t); order := direction t |}))
  /\ (forall t, Py.contains SPLIT_REL (field_name t) = true ->
        sort_token schema t = Ok {| field := field_name t; order := direction t |})
  /\ (forall value, dict_get "sort" qs = Some value -> value <> EmptyString ->
        (forall ds, Forall2 (fun t d => sort_token schema t = Ok d) (Py.split "," value) ds ->
                    sorting schema qs = Ok ds)
        /\ (forall t e, In t (Py.split "," value) -> sort_token schema t = Raise e ->
                        exists detail, sorting schema qs = Raise (InvalidSort detail))).
Proof.
  split; [|split; [|split]].
  - intros Hnone. unfold sorting. now rewrite Hnone.
  - intros t Hsep. unfold sort_token, field_name, direction in *. rewrite Hsep. simpl.
    repeat split.
    + now intros ->.
    + now intros -> ->.
    + now intros -> ->.
  - intros t Hsep. unfold sort_token, field_name, direction in *. now rewrite Hsep.
  - intros value Hget Hne. unfold sorting. rewrite Hget.
    destruct value as [|c r]; [congruence|]. split.
    + apply sort_tokens_all.
    + apply sort_tokens_raise.
Qed.

Lemma sorting_checks_tokens_witness :
  sorting post_schema [("sort", "-created,author.name,title")]
  = Ok [ {| field := "created_at"; order := desc |};
         {| field := "author.name"; order := asc |};
         {| field := "title"; order := asc |} ].
Proof.
  assert (Hne : "-created,author.name,title" <> EmptyString) by discriminate.
  destruct (proj2 (proj2 (proj2
              (sorting_checks_tokens post_schema [("sort", "-created,author.name,title")])))
              "-created,author.name,title" eq_refl Hne) as [Hok _].
  apply Hok.
  change (Py.split "," "-created,author.name,title") with ["-created"; "author.name"; "title"].
  repeat (constructor; [reflexivity|]). constructor.
Defined.

(** ** Sparse fieldsets *)

Lemma check_declared_all schema fs :
  (forall f, In f fs -> mem f (_declared_fields schema) = true) ->
  check_declared schema fs = Ok tt.
Proof.
  induction fs as [|f rest IH]; simpl; intros H; [reflexivity|].
  rewrite (H f) by now left. simpl. apply IH. intros; apply H; now right.
Qed.

Lemma check_declared_missing schema fs f :
  In f fs -> mem f (_declared_fields schema) = false ->
  exists f', In f' fs /\ mem f' (_declared_fields schema) = false
             /\ check_declared schema fs
                = Raise (InvalidField (__name__ schema ++ " has no attribute " ++ f')).
Proof.
  induction fs as [|f0 rest IH]; simpl; intros Hin Hf; [contradiction|].
  destruct (mem f0 (_declared_fields schema)) eqn:E0; simpl.
  - destruct Hin as [-> | Hin]; [congruence|].
    destruct (IH Hin Hf) as (f' & Hin' & Hf' & ->). eauto.
  - exists f0. auto.
Qed.

Section Fields.

Variable registry : Registry.

Lemma check_fields_all requested :
  (forall type_ fs, In (type_, fs) requested -> registry type_ <> None) ->
  (forall type_ fs schema f, In (type_, fs) requested -> registry type_ = Some schema ->
                             In f fs -> mem f (_declared_fields schema) = true) ->
  check_fields registry requested = Ok tt.
Proof.
  induction requested as [|[type_ fs] rest IH]; simpl; intros Hres Hdecl; [reflexivity|].
  unfold get_schema_from_type.
  destruct (registry type_) as [schema|] eqn:Er; [|now elim (Hres type_ fs); auto].
  simpl. rewrite check_declared_all by (intros; eapply Hdecl; eauto). simpl.
  apply IH; intros; [eapply Hres | eapply Hdecl]; eauto.
Qed.

Lemma check_fields_missing requested : forall type_ fs schema f,
  (forall type_ fs, In (type_, fs) requested -> registry type_ <> None) ->
  In (type_, fs) requested -> registry type_ = Some schema ->
  In f fs -> mem f (_declared_fields schema) = false ->
  exists type' fs' schema' f',
    In (type', fs') requested /\ registry type' = Some schema' /\ In f' fs'
    /\ mem f' (_declared_fields schema') = false
    /\ check_fields registry requested
       = Raise (InvalidField (__name__ schema' ++ " has no attribute " ++ f')).
Proof.
  induction requested as [|[type0 fs0] rest IH]; simpl;
    intros type_ fs schema f Hres Hin Hreg Hf Hmiss; [contradiction|].
  unfold get_schema_from_type.
  destruct (registry type0) as [schema0|] eqn:Er; [|now elim (Hres type0 fs0); auto].
  simpl. destruct (check_declared schema0 fs0) as [[]|e] eqn:Ec; simpl.
  - destruct Hin as [[= -> ->] | Hin].
    + rewrite Hreg in Er. injection Er as <-.
      destruct (check_declared_missing _ _ _ Hf Hmiss) as (f' & _ & _ & Hc). congruence.
    + destruct (IH type_ fs schema f) as (type' & fs' & schema' & f' & H1 & H2 & H3 & H4 & H5);
        eauto 10.
  - assert (Hsome : exists f0, In f0 fs0 /\ mem f0 (_declared_fields schema0) = false).
    { clear - Ec. induction fs0 as [|g fs0 IHf]; simpl in Ec; [discriminate|].
      destruct (mem g (_declared_fields schema0)) eqn:Eg; simpl in Ec.
      - destruct (IHf Ec) as (f0 & ? & ?). exists f0. split; [now right | assumption].
      - exists g. split; [now left | assumption]. }
    destruct Hsome as (f0 & Hin0 & Hmiss0).
    destruct (check_declared_missing _ _ _ Hin0 Hmiss0) as (f' & Hin' & Hmiss' & Hc).
    rewrite Hc in Ec. injection Ec as <-.
    exists type0, fs0, schema0, f'. auto 10.
Qed.

End Fields.

(** C9. With every requested type resolved by the registry, the fields
    accessor fails with InvalidField, naming a schema and a field that
    schema does not declare, whenever some requested field is undeclared;
    when all are declared it returns the map from type name to list of
    field names, a scalar value being a one-element list.  So
    fields[user]=name,email yields user with name and email. *)
Theorem fields_checks_declared (registry : Registry) (qs : querystring_t)
    (items : dict item_value) :
  _get_key_values "fields" qs = Ok items ->
  (forall type_ fs, In (type_, fs) (normalized items) -> registry type_ <> None) ->
  ((forall type_ fs schema f,
       In (type_, fs) (normalized items) -> registry type_ = Some schema -> In f fs ->
       mem f (_declared_fields schema) = true) ->
   fields registry qs = Ok (normalized items))
  /\ (forall type_ fs schema f,
         In (type_, fs) (normalized items) -> registry type_ = Some schema -> In f fs ->
         mem f (_declared_fields schema) = false ->
         exists type' fs' schema' f',
           In (type', fs') (normalized items) /\ registry type' = Some schema' /\ In f' fs'
           /\ mem f' (_declared_fields schema') = false
           /\ fields registry qs
              = Raise (InvalidField (__name__ schema' ++ " has no attribute " ++ f')))
  /\ normalized [("user", Multi ["name"; "email"]); ("post", Scalar "title")]
     = [("user", ["name"; "email"]); ("post", ["title"])]
  /\ _get_key_values "fields" [("fields[user]", "name,email")]
     = Ok [("user", Multi ["name"; "email"])].
Proof.
  intros Hitems Hres. unfold fields. rewrite Hitems. simpl. fold (normalized items).
  split; [|split; [|split; reflexivity]].
  - intros Hdecl. now rewrite check_fields_all.
  - intros type_ fs schema f Hin Hreg Hf Hmiss.
    destruct (check_fields_missing registry _ _ _ _ _ Hres Hin Hreg Hf Hmiss)
      as (type' & fs' & schema' & f' & H1 & H2 & H3 & H4 & H5).
    exists type', fs', schema', f'. rewrite H5. auto 10.
Qed.

Lemma fields_checks_declared_witness :
  fields user_registry [("fields[user]", "name,email")] = Ok [("user", ["name"; "email"])].
Proof.
  refine (proj1 (fields_checks_declared user_registry [("fields[user]", "name,email")]
                   [("user", Multi ["name"; "email"])] eq_refl _) _).
  - intros type_ fs [[= <- <-] | []]. discriminate.
  - intros type_ fs schema f [[= <- <-] | []] [= <-] [<- | [<- | []]]; reflexivity.
Defined.

(** An undeclared field of a sparse fieldset is reported with the schema. *)
Example fields_undeclared :
  fields user_registry [("fields[user]", "name,age")]
  = Raise (InvalidField "User has no attribute age").
Proof. reflexivity. Qed.

(** * Further properties of the module *)

(** ** Strings *)

Lemma string_app_assoc (a b c : string) : ((a ++ b) ++ c = a ++ (b ++ c))%string.
Proof. induction a as [|x a IH]; simpl; [reflexivity | now rewrite IH]. Qed.

Lemma string_app_empty_r (a : string) : (a ++ EmptyString)%string = a.
Proof. induction a as [|x a IH]; simpl; [reflexivity | now rewrite IH]. Qed.

Lemma string_length_app (a b : string) :
  String.length (a ++ b)%string = (String.length a + String.length b)%nat.
Proof. induction a as [|x a IH]; simpl; [reflexivity | now rewrite IH]. Qed.

Lemma index_app_none c a b :
  Py.index c a = None -> Py.index c b = None -> Py.index c (a ++ b)%string = None.
Proof.
  induction a as [|x a IH]; simpl; intros Ha Hb; [assumption|].
  destruct (Ascii.eqb x c); [discriminate|].
  destruct (Py.index c a); [discriminate|]. now rewrite IH.
Qed.

Lemma index_app_here c a rest :
  Py.index c a = None -> Py.index c (a ++ String c rest)%string = Some (String.length a).
Proof.
  induction a as [|x a IH]; simpl; intros Ha.
  - now rewrite Ascii.eqb_refl.
  - destruct (Ascii.eqb x c); [discriminate|].
    destruct (Py.index c a); [discriminate|]. now rewrite IH.
Qed.

Lemma substring_zero_length n s : String.substring n 0 s = EmptyString.
Proof.
  revert n. induction s as [|x s IH]; intros [|n]; simpl; auto.
Qed.

Lemma substring_skip a n s :
  String.substring (String.length a) n (a ++ s)%string = String.substring 0 n s.
Proof. induction a as [|x a IH]; simpl; [reflexivity | exact IH]. Qed.

Lemma substring_head a rest :
  String.substring 0 (String.length a) (a ++ rest)%string = a.
Proof.
  induction a as [|x a IH]; simpl.
  - now destruct rest.
  - now rewrite IH.
Qed.

(** A character found in a prefix of a string is found there in the string. *)
Lemma prefix_index p : forall s c i,
  String.prefix p s = true -> Py.index c p = Some i -> Py.index c s = Some i.
Proof.
  induction p as [|x p IH]; intros s c i Hp Hi; [discriminate|].
  destruct s as [|y s]; [discriminate|].
  change (String.prefix (String x p) (String y s))
    with (if ascii_dec x y then String.prefix p s else false) in Hp.
  destruct (ascii_dec x y) as [<-|]; [|discriminate].
  simpl in *. destruct (Ascii.eqb x c); [assumption|].
  destruct (Py.index c p) as [k|] eqn:Ek; [|discriminate].
  now rewrite (IH s c k Hp Ek).
Qed.

(** ** Bracketed-group extraction *)

Lemma parse_item_ok key value :
  well_bracketed key = true ->
  exists sub, parse_item key value = Ok (sub, item_value_of value).
Proof.
  unfold well_bracketed, parse_item.
  destruct (Py.index "[" key); [|discriminate].
  destruct (Py.index "]" key); [|discriminate]. eauto.
Qed.

Lemma parse_item_raise key value :
  well_bracketed key = false -> parse_item key value = Raise (BadRequest "Parse error" key).
Proof.
  unfold well_bracketed, parse_item.
  destruct (Py.index "[" key); [|reflexivity].
  destruct (Py.index "]" key); [discriminate | reflexivity].
Qed.

Lemma get_key_values_from_ok name qs :
  (forall key value, In (key, value) qs -> Py.startswith name key = true ->
                     well_bracketed key = true) ->
  forall acc, exists group, get_key_values_from name qs acc = Ok group.
Proof.
  induction qs as [|[key value] rest IH]; simpl; intros Hwb acc; [eauto|].
  destruct (Py.startswith name key) eqn:Hp; simpl.
  - destruct (parse_item_ok key value) as (sub & ->); [eapply Hwb; eauto|].
    simpl. apply IH. intros; eapply Hwb; eauto.
  - apply IH. intros; eapply Hwb; eauto.
Qed.

Lemma get_key_values_from_raise name qs : forall acc e,
  get_key_values_from name qs acc = Raise e ->
  exists key value,
    In (key, value) qs /\ Py.startswith name key = true
    /\ well_bracketed key = false /\ e = BadRequest "Parse error" key.
Proof.
  induction qs as [|[key value] rest IH]; simpl; intros acc e Hrun; [discriminate|].
  destruct (Py.startswith name key) eqn:Hp; simpl in Hrun.
  - destruct (well_bracketed key) eqn:Hwb.
    + destruct (parse_item_ok key value Hwb) as (sub & Hitem).
      rewrite Hitem in Hrun; simpl in Hrun.
      destruct (IH _ _ Hrun) as (k & v & Hin & H). exists k, v. split; [now right | exact H].
    + rewrite (parse_item_raise key value Hwb) in Hrun. simpl in Hrun. injection Hrun as <-.
      exists key, value. auto.
  - destruct (IH _ _ Hrun) as (k & v & Hin & H). exists k, v. split; [now right | exact H].
Qed.

(** X1. Extraction for a name succeeds exactly when every raw key that
    starts with the name holds an opening and a closing bracket. *)
Theorem extraction_succeeds_iff_brackets (name : string) (qs : querystring_t) :
  (exists group, _get_key_values name qs = Ok group)
  <-> (forall key value, In (key, value) qs -> Py.startswith name key = true ->
                         well_bracketed key = true).
Proof.
  split.
  - intros (group & Hrun) key value Hin Hp.
    destruct (well_bracketed key) eqn:Hwb; [reflexivity|]. exfalso.
    apply in_split in Hin as (qs1 & qs2 & ->).
    unfold _get_key_values in Hrun. rewrite get_key_values_from_app in Hrun.
    destruct (get_key_values_from name qs1 []) as [acc|e]; simpl in Hrun; [|discriminate].
    rewrite Hp in Hrun; simpl in Hrun.
    rewrite (parse_item_raise key value Hwb) in Hrun. discriminate.
  - intros Hwb. now apply get_key_values_from_ok.
Qed.

(** X2. The BadRequest of a failed extraction names the first raw key, in
    the order of the querystring, that starts with the name and lacks a
    bracket. *)
Theorem extraction_names_first_malformed_key
    (name : string) (qs1 qs2 : querystring_t) (key value : string) :
  (forall k v, In (k, v) qs1 -> Py.startswith name k = true -> well_bracketed k = true) ->
  Py.startswith name key = true ->
  well_bracketed key = false ->
  _get_key_values name (qs1 ++ (key, value) :: qs2) = Raise (BadRequest "Parse error" key).
Proof.
  intros Hbefore Hp Hwb. unfold _get_key_values. rewrite get_key_values_from_app.
  destruct (get_key_values_from_ok name qs1 Hbefore []) as (acc & ->). simpl.
  rewrite Hp. simpl. now rewrite (parse_item_raise key value Hwb).
Qed.

Lemma extraction_names_first_malformed_key_witness :
  _get_key_values "page" ([("page[size]", "3"); ("sort", "name")]
                          ++ ("page(number)", "2") :: [("pagenumber", "1")])
  = Raise (BadRequest "Parse error" "page(number)").
Proof.
  apply (extraction_names_first_malformed_key "page"
           [("page[size]", "3"); ("sort", "name")] [("pagenumber", "1")] "page(number)" "2").
  - intros k v [[= <- <-] | [[= <- <-] | []]]; [reflexivity | discriminate].
  - reflexivity.
  - reflexivity.
Defined.

Lemma dict_update_keys {V} k (v : V) d k' :
  In k' (map fst (dict_update k v d)) <-> k' = k \/ In k' (map fst d).
Proof.
  induction d as [|[k0 v0] r IH]; simpl.
  - intuition.
  - destruct (String.eqb_spec k0 k) as [->|Hne]; simpl; [intuition|].
    rewrite IH. intuition.
Qed.

Lemma dict_update_nodup {V} k (v : V) d :
  NoDup (map fst d) -> NoDup (map fst (dict_update k v d)).
Proof.
  induction d as [|[k0 v0] r IH]; simpl; intros Hnd.
  - constructor; [intros [] | constructor].
  - inversion Hnd as [|? ? Hnotin Hnd']; subst.
    destruct (String.eqb_spec k0 k) as [->|Hne]; simpl.
    + now constructor.
    + constructor; [|now apply IH].
      rewrite dict_update_keys. intros [-> | Hin]; [now apply Hne | now apply Hnotin].
Qed.

Lemma dict_get_update_inv {V} sub k (v x : V) d :
  dict_get sub (dict_update k v d) = Some x ->
  (sub = k /\ x = v) \/ dict_get sub d = Some x.
Proof.
  destruct (String.eqb_spec sub k) as [->|Hne].
  - rewrite dict_get_update_same. intros [= <-]. now left.
  - rewrite dict_get_update_other by assumption. now right.
Qed.

Lemma get_key_values_from_sound name qs : forall acc group,
  get_key_values_from name qs acc = Ok group ->
  (NoDup (map fst acc) -> NoDup (map fst group))
  /\ forall sub v, dict_get sub group = Some v ->
       dict_get sub acc = Some v
       \/ exists key value, In (key, value) qs /\ Py.startswith name key = true
                            /\ parse_item key value = Ok (sub, v).
Proof.
  induction qs as [|[key value] rest IH]; simpl; intros acc group Hrun.
  - injection Hrun as <-. auto.
  - destruct (Py.startswith name key) eqn:Hp; simpl in Hrun.
    + destruct (parse_item key value) as [[sub0 v0]|e] eqn:Hitem; simpl in Hrun; [|discriminate].
      destruct (IH _ _ Hrun) as [Hnd Hsrc]. split.
      * intros Hacc. apply Hnd. now apply dict_update_nodup.
      * intros sub v Hget. destruct (Hsrc sub v Hget) as [Hupd | (k & x & Hin & H)].
        -- destruct (dict_get_update_inv _ _ _ _ _ Hupd) as [[-> ->] | Hold]; [|now left].
           right. exists key, value. auto.
        -- right. exists k, x. split; [now right | exact H].
    + destruct (IH _ _ Hrun) as [Hnd Hsrc]. split; [exact Hnd|].
      intros sub v Hget. destruct (Hsrc sub v Hget) as [Hold | (k & x & Hin & H)]; [now left|].
      right. exists k, x. split; [now right | exact H].
Qed.

(** X3. An extracted group holds each sub-key once, and every entry of it
    is the sub-key and value of some raw key that starts with the name:
    the extractor invents nothing. *)
Theorem extracted_entries_come_from_prefixed_keys
    (name : string) (qs : querystring_t) (group : dict item_value) :
  _get_key_values name qs = Ok group ->
  NoDup (map fst group)
  /\ forall sub v, dict_get sub group = Some v ->
       exists key value, In (key, value) qs /\ Py.startswith name key = true
                         /\ parse_item key value = Ok (sub, v).
Proof.
  intros Hrun. destruct (get_key_values_from_sound name qs [] group Hrun) as [Hnd Hsrc].
  split; [apply Hnd; constructor|].
  intros sub v Hget. destruct (Hsrc sub v Hget) as [Hnil | H]; [discriminate | exact H].
Qed.

Lemma extracted_entries_come_from_prefixed_keys_witness :
  NoDup (map fst [("size", Scalar "9"); ("number", Scalar "2")])
  /\ forall sub v,
       dict_get sub [("size", Scalar "9"); ("number", Scalar "2")] = Some v ->
       exists key value,
         In (key, value) [("page[size]", "5"); ("page[number]", "2"); ("pages[size]", "9")]
         /\ Py.startswith "page" key = true /\ parse_item key value = Ok (sub, v).
Proof.
  apply (extracted_entries_come_from_prefixed_keys "page"
           [("page[size]", "5"); ("page[number]", "2"); ("pages[size]", "9")]).
  reflexivity.
Defined.

(** X4. For a key written prefix[sub]rest, where the prefix holds no bracket
    and sub holds no closing bracket, the extractor reads exactly sub as
    the sub-key, whatever follows the closing bracket. *)
Theorem subkey_of_bracketed_key (before sub rest value : string) :
  Py.index "[" before = None ->
  Py.index "]" before = None ->
  Py.index "]" sub = None ->
  parse_item (before ++ String "[" (sub ++ String "]" rest))%string value
  = Ok (sub, item_value_of value).
Proof.
  intros Hopen Hclose Hsub. unfold parse_item.
  rewrite (index_app_here "[" before _ Hopen).
  replace (before ++ String "[" (sub ++ String "]" rest))%string
    with ((before ++ String "[" sub) ++ String "]" rest)%string
    by (rewrite string_app_assoc; reflexivity).
  rewrite index_app_here.
  - unfold Py.slice.
    replace ((before ++ String "[" sub) ++ String "]" rest)%string
      with ((before ++ String "[" EmptyString) ++ (sub ++ String "]" rest))%string
      by (rewrite !string_app_assoc; reflexivity).
    replace (String.length before + 1)%nat
      with (String.length (before ++ String "[" EmptyString)%string)
      by (rewrite string_length_app; reflexivity).
    rewrite substring_skip.
    replace (String.length (before ++ String "[" sub)
             - String.length (before ++ String "[" EmptyString))%nat
      with (String.length sub)
      by (rewrite !string_length_app; simpl; lia).
    now rewrite substring_head.
  - apply index_app_none; [assumption|]. simpl. now rewrite Hsub.
Qed.

Lemma subkey_of_bracketed_key_witness :
  parse_item ("filter" ++ String "[" ("author.name" ++ String "]" "[x]"))%string "1,2"
  = Ok ("author.name", item_value_of "1,2").
Proof.
  apply (subkey_of_bracketed_key "filter" "author.name" "[x]" "1,2"); reflexivity.
Defined.

(** X5. The closing bracket is the first one of the whole key: when it
    stands before the opening bracket the slice is empty, so the sub-key
    is the empty string and no error is raised by the extractor. *)
Theorem subkey_empty_when_closing_bracket_first (key value : string) (i j : nat) :
  Py.index "[" key = Some i ->
  Py.index "]" key = Some j ->
  (j < i)%nat ->
  parse_item key value = Ok (EmptyString, item_value_of value).
Proof.
  intros Hi Hj Hlt. unfold parse_item, Py.slice. rewrite Hi, Hj.
  replace (j - (i + 1))%nat with 0%nat by lia.
  now rewrite substring_zero_length.
Qed.

Lemma subkey_empty_when_closing_bracket_first_witness :
  parse_item "page]size[" "5" = Ok (EmptyString, item_value_of "5").
Proof.
  apply (subkey_empty_when_closing_bracket_first "page]size[" "5" 9 4); [reflexivity .. | lia].
Defined.

(** ** Comma-separated values *)

Lemma prefix_comma c r : String.prefix "," (String c r) = Ascii.eqb c ",".
Proof.
  change (String.prefix "," (String c r))
    with (if ascii_dec "," c then String.prefix EmptyString r else false).
  destruct (ascii_dec "," c) as [<-|Hne].
  - now destruct r.
  - destruct (Ascii.eqb_spec c ","); [congruence | reflexivity].
Qed.

Lemma split_comma_step c r cur :
  Py.split_go "," 0 cur (String c r)
  = if Ascii.eqb c "," then cur :: Py.split_go "," 0 EmptyString r
    else Py.split_go "," 0 (cur ++ String c EmptyString)%string r.
Proof.
  change (Py.split_go "," 0 cur (String c r))
    with (if String.prefix "," (String c r)
          then cur :: Py.split_go "," 0 EmptyString r
          else Py.split_go "," 0 (cur ++ String c EmptyString)%string r).
  now rewrite prefix_comma.
Qed.

Lemma contains_comma_cons c r :
  Py.contains "," (String c r) = Ascii.eqb c "," || Py.contains "," r.
Proof.
  change (Py.contains "," (String c r))
    with (String.prefix "," (String c r) || Py.contains "," r).
  now rewrite prefix_comma.
Qed.

Lemma contains_comma_snoc cur c :
  Py.contains "," cur = false -> Ascii.eqb c "," = false ->
  Py.contains "," (cur ++ String c EmptyString)%string = false.
Proof.
  intros Hcur Hc. induction cur as [|x cur IH].
  - simpl (EmptyString ++ _)%string. rewrite contains_comma_cons, Hc. reflexivity.
  - simpl (String x cur ++ _)%string. rewrite contains_comma_cons in *.
    apply orb_false_iff in Hcur as [Hx Hrest]. rewrite Hx, (IH Hrest). reflexivity.
Qed.

Lemma split_go_nonempty sep k cur s : Py.split_go sep k cur s <> [].
Proof.
  revert k cur. induction s as [|c r IH]; intros k cur.
  - simpl. congruence.
  - cbn [Py.split_go]. destruct k; [|apply IH].
    destruct (String.prefix sep (String c r)); [congruence | apply IH].
Qed.

Lemma join_cons sep x l : l <> [] -> join sep (x :: l) = (x ++ sep ++ join sep l)%string.
Proof. destruct l; [congruence | reflexivity]. Qed.

Lemma join_split_comma s : forall cur, join "," (Py.split_go "," 0 cur s) = (cur ++ s)%string.
Proof.
  induction s as [|c r IH]; intros cur.
  - simpl. now rewrite string_app_empty_r.
  - rewrite split_comma_step. destruct (Ascii.eqb_spec c ",") as [->|Hne].
    + rewrite join_cons by apply split_go_nonempty. now rewrite IH.
    + rewrite IH, string_app_assoc. reflexivity.
Qed.

Lemma split_comma_parts s : forall cur,
  Py.contains "," cur = false ->
  Forall (fun part => Py.contains "," part = false) (Py.split_go "," 0 cur s).
Proof.
  induction s as [|c r IH]; intros cur Hcur.
  - simpl. now constructor.
  - rewrite split_comma_step. destruct (Ascii.eqb c ",") eqn:Hc.
    + constructor; [assumption | now apply IH].
    + apply IH. now apply contains_comma_snoc.
Qed.

Lemma split_comma_length s : forall cur,
  Py.contains "," s = true -> (2 <= List.length (Py.split_go "," 0 cur s))%nat.
Proof.
  induction s as [|c r IH]; intros cur Hs; [discriminate|].
  rewrite contains_comma_cons in Hs. rewrite split_comma_step.
  destruct (Ascii.eqb c ","); simpl in *.
  - pose proof (split_go_nonempty "," 0 EmptyString r).
    destruct (Py.split_go "," 0 EmptyString r); [congruence | simpl; lia].
  - now apply IH.
Qed.

(** X6. A raw value without a comma is kept as a scalar; one with a comma
    becomes a list of at least two comma-free parts that, joined with
    commas, give the raw value back. *)
Theorem comma_values_split_and_join_back (value : string) :
  (Py.contains "," value = false -> item_value_of value = Scalar value)
  /\ (Py.contains "," value = true ->
      exists parts,
        item_value_of value = Multi parts
        /\ join "," parts = value
        /\ (2 <= List.length parts)%nat
        /\ Forall (fun part => Py.contains "," part = false) parts).
Proof.
  unfold item_value_of. split; intros Hc; rewrite Hc; [reflexivity|].
  exists (Py.split "," value). unfold Py.split. repeat split.
  - apply join_split_comma.
  - now apply split_comma_length.
  - now apply split_comma_parts.
Qed.

Lemma comma_values_split_and_join_back_witness :
  exists parts,
    item_value_of "name,,email" = Multi parts
    /\ join "," parts = "name,,email"
    /\ (2 <= List.length parts)%nat
    /\ Forall (fun part => Py.contains "," part = false) parts.
Proof.
  apply (proj2 (comma_values_split_and_join_back "name,,email")). reflexivity.
Defined.

(** ** Filters *)



(** X8. An exception of the filters accessor is InvalidFilters, or the
    BadRequest that names a raw key starting with filter[ that lacks its
    closing bracket, or an exception of the decoder itself that is neither
    a ValueError nor a TypeError (such as the RecursionError of a deeply
    nested text), which the handler lets through. *)
Theorem filters_raises_only_parse_errors
    (loads : string -> result json) (qs : querystring_t) (e : exn) :
  filters loads qs = Raise e ->
  e = InvalidFilters "Parse error"
  \/ (exists key value,
         In (key, value) qs /\ Py.startswith "filter[" key = true
         /\ Py.index "]" key = None /\ e = BadRequest "Parse error" key)
  \/ (exists payload,
         dict_get "filter" qs = Some payload /\ loads payload = Raise e
         /\ e <> ValueError /\ e <> TypeError).
Proof.
  unfold filters. intros Hrun.
  destruct (match dict_get "filter" qs with
            | Some filters_ => load_filters loads filters_
            | None => Ok []
            end) as [results|e0] eqn:Ejson; cbn [bind] in Hrun.
  - right. left.
    destruct (_get_key_values "filter[" qs) as [group|e1] eqn:Eg; cbn [bind] in Hrun.
    + destruct (nonempty group); discriminate.
    + injection Hrun as <-.
      destruct (get_key_values_from_raise _ _ _ _ Eg) as (key & value & Hin & Hp & Hwb & ->).
      exists key, value. repeat split; try assumption.
      unfold well_bracketed in Hwb.
      destruct (Py.index "[" key) eqn:Eo.
      * destruct (Py.index "]" key); [discriminate | reflexivity].
      * rewrite (prefix_index "filter[" key "[" 6 Hp eq_refl) in Eo. discriminate.
  - injection Hrun as <-.
    destruct (dict_get "filter" qs) as [payload|]; [|discriminate].
    unfold load_filters in Ejson.
    destruct (loads payload) as [v|e1] eqn:El.
    + left. destruct (iterate v); [discriminate | now injection Ejson].
    + destruct e1; try (left; now injection Ejson);
        right; right; exists payload; injection Ejson as <-;
        repeat split; try reflexivity; try assumption; discriminate.
Qed.

(** A decoder that gives up on nesting deeper than the interpreter allows. *)
Example filters_lets_recursion_error_through :
  filters (fun _ => Raise RecursionError) [("filter", "[[[[1]]]]")] = Raise RecursionError.
Proof. reflexivity. Qed.

Lemma filters_raises_only_parse_errors_witness :
  BadRequest "Parse error" "filter[age" = InvalidFilters "Parse error"
  \/ (exists key value,
         In (key, value) [("filter", "[]"); ("filter[age", "5")]
         /\ Py.startswith "filter[" key = true
         /\ Py.index "]" key = None
         /\ BadRequest "Parse error" "filter[age" = BadRequest "Parse error" key)
  \/ (exists payload,
         dict_get "filter" [("filter", "[]"); ("filter[age", "5")] = Some payload
         /\ Json.decoder payload = Raise (BadRequest "Parse error" "filter[age")
         /\ BadRequest "Parse error" "filter[age" <> ValueError
         /\ BadRequest "Parse error" "filter[age" <> TypeError).
Proof.
  apply (filters_raises_only_parse_errors Json.decoder [("filter", "[]"); ("filter[age", "5")]).
  reflexivity.
Defined.

(** ** Pagination *)

Lemma mem_number_size k : mem k ["number"; "size"] = true -> k = "number" \/ k = "size".
Proof.
  unfold mem; simpl.
  destruct (String.eqb_spec k "number"); [now left|].
  destruct (String.eqb_spec k "size"); [now right | discriminate].
Qed.

Lemma check_page_values_keys items : forall r,
  check_page_values items = Ok r ->
  map fst r = map fst items
  /\ forall k, In k (map fst r) -> k = "number" \/ k = "size".
Proof.
  induction items as [|[key value] rest IH]; cbn [check_page_values]; intros r Hrun.
  - injection Hrun as <-. split; [reflexivity | intros k []].
  - destruct (mem key ["number"; "size"]) eqn:Hkey; cbn [negb] in Hrun; [|discriminate].
    destruct (coerce_page_value key value) as [n|e]; cbn [bind] in Hrun; [|discriminate].
    destruct (check_page_values rest) as [r0|e]; cbn [bind] in Hrun; [|discriminate].
    injection Hrun as <-. destruct (IH r0 eq_refl) as [Hkeys Hin]. simpl. split.
    + now rewrite Hkeys.
    + intros k [<- | Hk]; [now apply mem_number_size | now apply Hin].
Qed.

Lemma check_page_values_app a b :
  check_page_values (a ++ b)
  = (ra <- check_page_values a ;; rb <- check_page_values b ;; Ok (ra ++ rb)).
Proof.
  induction a as [|[key value] rest IH].
  - simpl. now destruct (check_page_values b).
  - cbn [app check_page_values].
    destruct (negb (mem key ["number"; "size"])); cbn [bind]; [reflexivity|].
    destruct (coerce_page_value key value); cbn [bind]; [|reflexivity].
    rewrite IH. destruct (check_page_values rest); cbn [bind]; [|reflexivity].
    now destruct (check_page_values b).
Qed.

Lemma check_page_policy_inv cfg r r' :
  check_page_policy cfg r = Ok r' ->
  r' = r /\ forall sz, dict_get "size" r = Some sz -> policy_permits cfg sz.
Proof.
  unfold check_page_policy, policy_permits. intros Hrun.
  destruct (dict_get "size" r) as [sz|] eqn:Hsz.
  - destruct (is_false (ALLOW_DISABLE_PAGINATION cfg) && (sz =? 0)%Z) eqn:Hdis; [discriminate|].
    assert (Hmax : forall m, MAX_PAGE_SIZE cfg = Some m -> (sz <= m)%Z).
    { intros m Hm. rewrite Hm in Hrun. destruct (Z.ltb_spec m sz); [discriminate | assumption]. }
    assert (Hr : r' = r).
    { destruct (MAX_PAGE_SIZE cfg) as [m|]; [|congruence].
      destruct (m <? sz)%Z; [discriminate | congruence]. }
    split; [exact Hr|]. intros sz' [= <-]. split; [|exact Hmax].
    intros [Ha ->]. rewrite Ha in Hdis. discriminate.
  - rewrite andb_false_r in Hrun.
    split; [|intros sz [=]].
    destruct (MAX_PAGE_SIZE cfg); congruence.
Qed.

Lemma dict_mem_keys {V} k (d : dict V) : dict_mem k d = false -> ~ In k (map fst d).
Proof.
  unfold dict_mem. induction d as [|[k0 v0] r IH]; simpl; intros Hm; [tauto|].
  destruct (String.eqb_spec k0 k) as [->|Hne]; [discriminate|].
  intros [-> | Hin]; [now apply Hne | now apply IH].
Qed.

(** X9. Every directive the pagination accessor returns is a dictionary
    without repeated keys, holds no key but number and size, and holds a
    size that the configured policy permits. *)
Theorem pagination_result_invariant (cfg : Config) (qs : querystring_t) (r : dict Z) :
  pagination cfg qs = Ok r ->
  NoDup (map fst r)
  /\ (forall k, In k (map fst r) -> k = "number" \/ k = "size")
  /\ exists sz, dict_get "size" r = Some sz /\ policy_permits cfg sz.
Proof.
  unfold pagination. intros Hrun.
  destruct (_get_key_values "page" qs) as [items|e] eqn:Hitems; simpl in Hrun; [|discriminate].
  destruct (check_page_values items) as [r0|e] eqn:Hvalues; simpl in Hrun; [|discriminate].
  destruct (check_page_policy_inv _ _ _ Hrun) as [-> Hpol].
  destruct (check_page_values_keys _ _ Hvalues) as [Hkeys Hin].
  destruct (get_key_values_from_sound _ _ _ _ Hitems) as [Hnd _].
  specialize (Hnd (NoDup_nil _)). rewrite <- Hkeys in Hnd.
  repeat split.
  - unfold dict_setdefault. destruct (dict_mem "size" r0) eqn:Hm; [assumption|].
    rewrite map_app. simpl. apply NoDup_app; [assumption | repeat constructor; intros [] |].
    intros a Ha [<- | []]. now apply (dict_mem_keys _ _ Hm).
  - intros k. unfold dict_setdefault. destruct (dict_mem "size" r0); [apply Hin|].
    rewrite map_app, in_app_iff. intros [Hk | [<- | []]]; [now apply Hin | now right].
  - rewrite dict_get_setdefault in *. eexists. split; [reflexivity|]. now apply Hpol.
Qed.

(** A configuration with both policies set: pagination may not be
    disabled and a page holds at most 50 entries. *)
Lemma pagination_result_invariant_witness :
  NoDup (map fst [("number", 2%Z); ("size", 50%Z)])
  /\ (forall k, In k (map fst [("number", 2%Z); ("size", 50%Z)]) -> k = "number" \/ k = "size")
  /\ exists sz, dict_get "size" [("number", 2%Z); ("size", 50%Z)] = Some sz
                /\ policy_permits {| PAGE_SIZE := Some 20%Z;
                                     ALLOW_DISABLE_PAGINATION := Some false;
                                     MAX_PAGE_SIZE := Some 50%Z;
                                     MAX_INCLUDE_DEPTH := None |} sz.
Proof.
  apply (pagination_result_invariant
           {| PAGE_SIZE := Some 20%Z; ALLOW_DISABLE_PAGINATION := Some false;
              MAX_PAGE_SIZE := Some 50%Z; MAX_INCLUDE_DEPTH := None |}
           [("page[number]", "2"); ("page[size]", "50")]).
  reflexivity.
Defined.

(** X10. The entries of the page group are checked in their order: with
    the entries before it accepted, the first entry whose sub-key is
    neither number nor size raises the BadRequest on page that names the
    sub-key; a scalar that is no integer literal raises BadRequest on its
    own parameter; a list raises TypeError. *)
Theorem pagination_reports_first_bad_entry
    (cfg : Config) (qs : querystring_t) (before after : dict item_value)
    (accepted : dict Z) (key : string) (value : item_value) :
  _get_key_values "page" qs = Ok (before ++ (key, value) :: after) ->
  check_page_values before = Ok accepted ->
  (mem key ["number"; "size"] = false ->
   pagination cfg qs
   = Raise (BadRequest (key ++ " is not a valid parameter of pagination") "page"))
  /\ (mem key ["number"; "size"] = true ->
      (forall s, value = Scalar s -> Py.int s = None ->
                 pagination cfg qs = Raise (BadRequest "Parse error" ("page[" ++ key ++ "]")))
      /\ (forall l, value = Multi l -> pagination cfg qs = Raise TypeError)).
Proof.
  intros Hitems Hbefore. unfold pagination. rewrite Hitems. simpl.
  rewrite check_page_values_app, Hbefore. simpl. split.
  - intros ->. reflexivity.
  - intros ->. simpl. split.
    + intros s -> Hint. simpl. now rewrite Hint.
    + intros l ->. reflexivity.
Qed.

Lemma pagination_reports_first_bad_entry_witness :
  pagination default_config [("page[size]", "10"); ("page[offset]", "x"); ("page[number]", "y")]
  = Raise (BadRequest "offset is not a valid parameter of pagination" "page").
Proof.
  apply (pagination_reports_first_bad_entry default_config
           [("page[size]", "10"); ("page[offset]", "x"); ("page[number]", "y")]
           [("size", Scalar "10")] [("number", Scalar "y")] [("size", 10%Z)]
           "offset" (Scalar "x")); reflexivity.
Defined.

(** ** Include *)

Lemma prefix_char a c r : String.prefix (String a EmptyString) (String c r) = Ascii.eqb c a.
Proof.
  change (String.prefix (String a EmptyString) (String c r))
    with (if ascii_dec a c then String.prefix EmptyString r else false).
  destruct (ascii_dec a c) as [<-|Hne].
  - rewrite Ascii.eqb_refl. now destruct r.
  - destruct (Ascii.eqb_spec c a); [congruence | reflexivity].
Qed.

Lemma contains_char_cons a c r :
  Py.contains (String a EmptyString) (String c r)
  = Ascii.eqb c a || Py.contains (String a EmptyString) r.
Proof.
  change (Py.contains (String a EmptyString) (String c r))
    with (String.prefix (String a EmptyString) (String c r)
          || Py.contains (String a EmptyString) r).
  now rewrite prefix_char.
Qed.

(** A single character is one segment, or two when it is the separator. *)
Lemma split_char_segments c :
  List.length (Py.split SPLIT_REL (String c EmptyString))
  = if Ascii.eqb c "." then 2%nat else 1%nat.
Proof.
  unfold Py.split, SPLIT_REL. cbn [Py.split_go]. rewrite prefix_char.
  destruct (Ascii.eqb c "."); reflexivity.
Qed.

Lemma include_without_limit cfg qs :
  match MAX_INCLUDE_DEPTH cfg, dict_get "include" qs with
  | Some max_depth, Some s => check_include_depth max_depth (Py.chars s)
  | _, _ => Ok tt
  end = Ok tt ->
  include cfg qs = Ok (include_paths qs).
Proof. unfold include, include_paths. intros ->. reflexivity. Qed.

(** X11. A configured MAX_INCLUDE_DEPTH of 2 or more never rejects
    anything: the include accessor answers as it does without a limit. *)
Theorem include_limit_from_two_never_rejects (cfg : Config) (qs : querystring_t) (m : Z) :
  MAX_INCLUDE_DEPTH cfg = Some m -> (2 <= m)%Z ->
  include cfg qs = Ok (include_paths qs) /\ include cfg qs = include default_config qs.
Proof.
  intros Hm Hle.
  assert (H : include cfg qs = Ok (include_paths qs)).
  { apply include_without_limit. rewrite Hm.
    destruct (dict_get "include" qs); [now apply check_include_depth_chars | reflexivity]. }
  split; [exact H|]. rewrite H. reflexivity.
Qed.

Lemma include_limit_from_two_never_rejects_witness :
  include {| PAGE_SIZE := None; ALLOW_DISABLE_PAGINATION := None;
             MAX_PAGE_SIZE := None; MAX_INCLUDE_DEPTH := Some 3%Z |}
          [("include", "a.b.c.d.e,f")]
  = Ok (include_paths [("include", "a.b.c.d.e,f")])
  /\ include {| PAGE_SIZE := None; ALLOW_DISABLE_PAGINATION := None;
                MAX_PAGE_SIZE := None; MAX_INCLUDE_DEPTH := Some 3%Z |}
             [("include", "a.b.c.d.e,f")]
     = include default_config [("include", "a.b.c.d.e,f")].
Proof.
  apply (include_limit_from_two_never_rejects _ _ 3%Z); [reflexivity | lia].
Defined.

Lemma check_include_depth_one s :
  check_include_depth 1 (Py.chars s)
  = if Py.contains SPLIT_REL s
    then Raise (InvalidInclude "You can't use include through more than 1 relationships")
    else Ok tt.
Proof.
  unfold Py.chars, SPLIT_REL. induction s as [|c r IH]; [reflexivity|].
  rewrite contains_char_cons.
  cbn [list_ascii_of_string map check_include_depth].
  rewrite split_char_segments. destruct (Ascii.eqb c "."); [reflexivity|].
  cbn [Z.ltb Z.of_nat Z.compare Pos.of_succ_nat Pos.compare Pos.compare_cont orb].
  exact IH.
Qed.

(** X12. With MAX_INCLUDE_DEPTH = 1 the include accessor rejects exactly
    the raw values that hold the relationship separator somewhere, and
    accepts all others. *)
Theorem include_limit_one_rejects_dotted_values
    (cfg : Config) (qs : querystring_t) (value : string) :
  MAX_INCLUDE_DEPTH cfg = Some 1%Z ->
  dict_get "include" qs = Some value ->
  (Py.contains SPLIT_REL value = true ->
   include cfg qs
   = Raise (InvalidInclude "You can't use include through more than 1 relationships"))
  /\ (Py.contains SPLIT_REL value = false -> include cfg qs = Ok (include_paths qs)).
Proof.
  intros Hm Hget. split; intros Hsep.
  - unfold include. rewrite Hm, Hget, check_include_depth_one, Hsep. reflexivity.
  - apply include_without_limit. now rewrite Hm, Hget, check_include_depth_one, Hsep.
Qed.

Lemma include_limit_one_rejects_dotted_values_witness :
  (Py.contains SPLIT_REL "author,tags,author.posts" = true ->
   include {| PAGE_SIZE := None; ALLOW_DISABLE_PAGINATION := None;
              MAX_PAGE_SIZE := None; MAX_INCLUDE_DEPTH := Some 1%Z |}
           [("include", "author,tags,author.posts")]
   = Raise (InvalidInclude "You can't use include through more than 1 relationships"))
  /\ (Py.contains SPLIT_REL "author,tags,author.posts" = false ->
      include {| PAGE_SIZE := None; ALLOW_DISABLE_PAGINATION := None;
                 MAX_PAGE_SIZE := None; MAX_INCLUDE_DEPTH := Some 1%Z |}
              [("include", "author,tags,author.posts")]
      = Ok (include_paths [("include", "author,tags,author.posts")])).
Proof.
  apply (include_limit_one_rejects_dotted_values _ _ "author,tags,author.posts"); reflexivity.
Defined.

(** X13. With a MAX_INCLUDE_DEPTH of 0 or less, every non-empty include
    value is rejected, and the message carries the configured number. *)
Theorem include_limit_below_one_rejects_all
    (cfg : Config) (qs : querystring_t) (m : Z) (c : ascii) (r : string) :
  MAX_INCLUDE_DEPTH cfg = Some m -> (m <= 0)%Z ->
  dict_get "include" qs = Some (String c r) ->
  include cfg qs
  = Raise (InvalidInclude ("You can't use include through more than "
                           ++ Py.str m ++ " relationships")).
Proof.
  intros Hm Hle Hget. unfold include. rewrite Hm, Hget.
  unfold Py.chars. cbn [list_ascii_of_string map check_include_depth].
  rewrite split_char_segments.
  assert (Hlt : (m <? Z.of_nat (if Ascii.eqb c "." then 2 else 1))%Z = true).
  { apply Z.ltb_lt. destruct (Ascii.eqb c "."); lia. }
  rewrite Hlt. reflexivity.
Qed.

Lemma include_limit_below_one_rejects_all_witness :
  include {| PAGE_SIZE := None; ALLOW_DISABLE_PAGINATION := None;
             MAX_PAGE_SIZE := None; MAX_INCLUDE_DEPTH := Some 0%Z |}
          [("include", "author")]
  = Raise (InvalidInclude ("You can't use include through more than "
                           ++ Py.str 0 ++ " relationships")).
Proof.
  apply (include_limit_below_one_rejects_all _ _ 0%Z "a"%char "uthor"); [reflexivity | lia | reflexivity].
Defined.

(** X14. The paths the include accessor returns, joined with commas, are
    the raw include value, and no path holds a comma; without the key
    there are no paths. *)
Theorem include_paths_join_back (cfg : Config) (qs : querystring_t) (paths : list string) :
  include cfg qs = Ok paths ->
  (forall value, dict_get "include" qs = Some value -> join "," paths = value)
  /\ (dict_get "include" qs = None -> paths = [])
  /\ Forall (fun path => Py.contains "," path = false) paths.
Proof.
  unfold include. intros Hrun.
  destruct (match MAX_INCLUDE_DEPTH cfg, dict_get "include" qs with
            | Some max_depth, Some s => check_include_depth max_depth (Py.chars s)
            | _, _ => Ok tt
            end); simpl in Hrun; [|discriminate].
  injection Hrun as <-. repeat split.
  - intros value ->. destruct value as [|c r]; [reflexivity|]. apply join_split_comma.
  - now intros ->.
  - destruct (dict_get "include" qs) as [[|c r]|]; try constructor.
    now apply split_comma_parts.
Qed.

Lemma include_paths_join_back_witness :
  (forall value, dict_get "include" [("include", "author,tags.posts")] = Some value ->
                 join "," ["author"; "tags.posts"] = value)
  /\ (dict_get "include" [("include", "author,tags.posts")] = None ->
      ["author"; "tags.posts"] = [])
  /\ Forall (fun path => Py.contains "," path = false) ["author"; "tags.posts"].
Proof.
  apply (include_paths_join_back default_config [("include", "author,tags.posts")]).
  reflexivity.
Defined.

(** ** Managed querystring *)

Lemma querystring_from_all_managed qs items :
  forallb managed items = true -> querystring_from qs items = Ok items.
Proof.
  induction items as [|[key value] rest IH]; [reflexivity|].
  cbn [forallb querystring_from]. intros H. apply andb_true_iff in H as [Hk Hrest].
  unfold is_managed. change (managed (key, value)) with (Py.startswith_any MANAGED_KEYS key) in Hk.
  rewrite Hk, (IH Hrest). reflexivity.
Qed.

Lemma querystring_from_raise qs e items :
  _get_key_values "filter[" qs = Raise e ->
  forallb managed items = false -> querystring_from qs items = Raise e.
Proof.
  intros Hg. induction items as [|[key value] rest IH]; [discriminate|].
  cbn [forallb querystring_from]. intros H. unfold is_managed.
  change (managed (key, value)) with (Py.startswith_any MANAGED_KEYS key) in H.
  destruct (Py.startswith_any MANAGED_KEYS key); cbn [bind andb] in *.
  - now rewrite (IH H).
  - now rewrite Hg.
Qed.

Lemma forallb_filter_same {A} (f : A -> bool) l : forallb f (filter f l) = true.
Proof.
  induction l as [|a l IH]; [reflexivity|]. simpl.
  destruct (f a) eqn:E; [simpl; now rewrite E | exact IH].
Qed.

(** X15. When every key starts with a managed name the querystring comes
    back whole and the filter[ keys are never parsed.  Otherwise the
    filter[ group is extracted: its BadRequest is raised; an empty group
    leaves the entries with a managed key; a non-empty group leaves every
    entry. *)
Theorem querystring_characterised (qs : querystring_t) :
  (forallb managed qs = true -> querystring qs = Ok qs)
  /\ (forallb managed qs = false ->
      querystring qs
      = (group <- _get_key_values "filter[" qs ;;
         Ok (if nonempty group then qs else filter managed qs))).
Proof.
  unfold querystring. split; intros H.
  - now apply querystring_from_all_managed.
  - destruct (_get_key_values "filter[" qs) as [group|e] eqn:Hg; cbn [bind].
    + now apply querystring_from_group.
    + now apply querystring_from_raise.
Qed.

Lemma querystring_characterised_witness :
  querystring [("sort", "name"); ("filter[age", "5"); ("utm_source", "mail")]
  = (group <- _get_key_values "filter["
                [("sort", "name"); ("filter[age", "5"); ("utm_source", "mail")] ;;
     Ok (if nonempty group
         then [("sort", "name"); ("filter[age", "5"); ("utm_source", "mail")]
         else filter managed [("sort", "name"); ("filter[age", "5"); ("utm_source", "mail")])).
Proof.
  apply (proj2 (querystring_characterised
                  [("sort", "name"); ("filter[age", "5"); ("utm_source", "mail")])).
  reflexivity.
Defined.

(** X16. A returned managed querystring holds only entries of the raw
    one, holds every raw entry whose key starts with a managed name, and
    is returned unchanged when the operation is applied to it again. *)
Theorem querystring_result_is_stable (qs r : querystring_t) :
  querystring qs = Ok r ->
  (forall kv, In kv r -> In kv qs)
  /\ (forall kv, In kv qs -> managed kv = true -> In kv r)
  /\ querystring r = Ok r.
Proof.
  unfold querystring. intros Hrun.
  destruct (forallb managed qs) eqn:Hm.
  - rewrite (querystring_from_all_managed qs qs Hm) in Hrun. injection Hrun as <-.
    repeat split; auto. now apply querystring_from_all_managed.
  - destruct (_get_key_values "filter[" qs) as [group|e] eqn:Hg.
    + rewrite (querystring_from_group qs group qs Hg) in Hrun. injection Hrun as <-.
      destruct (nonempty group) eqn:Hne.
      * repeat split; auto. now rewrite (querystring_from_group qs group qs Hg), Hne.
      * repeat split.
        -- intros kv Hin. now apply filter_In in Hin.
        -- intros kv Hin Hk. apply filter_In. auto.
        -- apply querystring_from_all_managed, forallb_filter_same.
    + rewrite (querystring_from_raise qs e qs Hg Hm) in Hrun. discriminate.
Qed.

Lemma querystring_result_is_stable_witness :
  (forall kv, In kv [("page[size]", "5"); ("q", "x")] ->
              In kv [("page[size]", "5"); ("utm_source", "mail"); ("q", "x")])
  /\ (forall kv, In kv [("page[size]", "5"); ("utm_source", "mail"); ("q", "x")] ->
                 managed kv = true -> In kv [("page[size]", "5"); ("q", "x")])
  /\ querystring [("page[size]", "5"); ("q", "x")] = Ok [("page[size]", "5"); ("q", "x")].
Proof.
  apply (querystring_result_is_stable
           [("page[size]", "5"); ("utm_source", "mail"); ("q", "x")]).
  reflexivity.
Defined.

(** ** Sorting *)

Lemma replace_hyphen_step c r :
  Py.replace_go "-" "" 0 (String c r)
  = if Ascii.eqb c "-" then Py.replace_go "-" "" 0 r
    else String c (Py.replace_go "-" "" 0 r).
Proof.
  change (Py.replace_go "-" "" 0 (String c r))
    with (if String.prefix "-" (String c r)
          then Py.replace_go "-" "" 0 r
          else String c (Py.replace_go "-" "" 0 r)).
  now rewrite prefix_char.
Qed.

Lemma field_name_no_hyphen t : Py.contains "-" (field_name t) = false.
Proof.
  unfold field_name, Py.replace. induction t as [|c r IH]; [reflexivity|].
  rewrite replace_hyphen_step. destruct (Ascii.eqb c "-") eqn:Hc; [exact IH|].
  now rewrite contains_char_cons, Hc, IH.
Qed.

Lemma field_name_hyphen_free t : Py.contains "-" t = false -> field_name t = t.
Proof.
  unfold field_name, Py.replace. induction t as [|c r IH]; [reflexivity|].
  rewrite contains_char_cons. intros H. apply orb_false_iff in H as [Hc Hr].
  now rewrite replace_hyphen_step, Hc, (IH Hr).
Qed.

(** X17. The name the sorting accessor looks up never holds a hyphen: a
    token free of hyphens is its own name, a leading hyphen changes only
    the direction, and a directive emitted for a relationship path has a
    field without any hyphen. *)
Theorem sort_names_are_hyphen_free :
  (forall t, Py.contains "-" (field_name t) = false)
  /\ (forall t, Py.contains "-" t = false -> field_name t = t)
  /\ (forall t, field_name (String "-" t) = field_name t
                /\ direction (String "-" t) = desc)
  /\ (forall schema t d,
         sort_token schema t = Ok d -> Py.contains SPLIT_REL (field_name t) = true ->
         Py.contains "-" (field d) = false).
Proof.
  split; [exact field_name_no_hyphen|]. split; [exact field_name_hyphen_free|]. split.
  - intros t. split.
    + unfold field_name, Py.replace. now rewrite replace_hyphen_step.
    + unfold direction, Py.startswith. now rewrite prefix_char.
  - intros schema t d Hd Hsep. unfold sort_token in Hd. fold (field_name t) in Hd.
    rewrite Hsep in Hd. cbn [negb] in Hd. injection Hd as <-. apply field_name_no_hyphen.
Qed.

Lemma sort_token_emitted schema t d : sort_token schema t = Ok d -> emitted_for schema t d.
Proof.
  unfold sort_token, emitted_for. fold (field_name t). fold (direction t).
  destruct (Py.contains SPLIT_REL (field_name t)) eqn:Hsep; cbn [negb].
  - intros [= <-]. split; [reflexivity | left; auto].
  - destruct (mem (field_name t) (_declared_fields schema)) eqn:Hdecl; cbn [negb];
      [|discriminate].
    destruct (mem (field_name t) (get_relationships schema)) eqn:Hrel; [discriminate|].
    intros [= <-]. split; [reflexivity | right; auto].
Qed.

Lemma sort_tokens_emitted schema tokens : forall ds,
  sort_tokens schema tokens = Ok ds -> Forall2 (emitted_for schema) tokens ds.
Proof.
  induction tokens as [|t rest IH]; cbn [sort_tokens]; intros ds Hrun.
  - injection Hrun as <-. constructor.
  - destruct (sort_token schema t) as [d|e] eqn:Ht; cbn [bind] in Hrun; [|discriminate].
    destruct (sort_tokens schema rest) as [r|e]; cbn [bind] in Hrun; [|discriminate].
    injection Hrun as <-. constructor; [now apply sort_token_emitted | now apply IH].
Qed.

(** X18. Whatever the sorting accessor returns has one directive per
    comma-separated token, in order, each with the direction of its token
    and a field that is either a relationship path or the storage name of
    a declared field that is no relationship; an absent or empty sort
    value gives no directive. *)
Theorem sorting_result_postcondition
    (schema : Schema) (qs : querystring_t) (ds : list sort_directive) :
  sorting schema qs = Ok ds ->
  (dict_get "sort" qs = None \/ dict_get "sort" qs = Some EmptyString -> ds = [])
  /\ (forall value, dict_get "sort" qs = Some value -> value <> EmptyString ->
                    Forall2 (emitted_for schema) (Py.split "," value) ds).
Proof.
  unfold sorting. intros Hrun. split.
  - intros [H | H]; rewrite H in Hrun; now injection Hrun.
  - intros value Hget Hne. rewrite Hget in Hrun.
    destruct value as [|c r]; [congruence|]. now apply sort_tokens_emitted.
Qed.

Lemma sorting_result_postcondition_witness :
  (dict_get "sort" [("sort", "-created,author.name")] = None
   \/ dict_get "sort" [("sort", "-created,author.name")] = Some EmptyString ->
   [ {| field := "created_at"; order := desc |}; {| field := "author.name"; order := asc |} ]
   = [])
  /\ (forall value, dict_get "sort" [("sort", "-created,author.name")] = Some value ->
                    value <> EmptyString ->
                    Forall2 (emitted_for post_schema) (Py.split "," value)
                      [ {| field := "created_at"; order := desc |};
                        {| field := "author.name"; order := asc |} ]).
Proof.
  apply (sorting_result_postcondition post_schema [("sort", "-created,author.name")]).
  reflexivity.
Defined.

(** ** Sparse fieldsets *)

Lemma check_declared_ok_inv schema fs :
  check_declared schema fs = Ok tt ->
  forall f, In f fs -> mem f (_declared_fields schema) = true.
Proof.
  induction fs as [|f0 rest IH]; cbn [check_declared]; intros Hrun f Hin; [contradiction|].
  destruct (mem f0 (_declared_fields schema)) eqn:E0; cbn [negb] in Hrun; [|discriminate].
  destruct Hin as [<- | Hin]; [assumption | now apply IH].
Qed.

Lemma check_fields_ok_inv registry requested :
  check_fields registry requested = Ok tt ->
  forall type_ fs, In (type_, fs) requested ->
    exists schema, registry type_ = Some schema
                   /\ forall f, In f fs -> mem f (_declared_fields schema) = true.
Proof.
  induction requested as [|[type0 fs0] rest IH]; cbn [check_fields];
    intros Hrun type_ fs Hin; [contradiction|].
  unfold get_schema_from_type in Hrun.
  destruct (registry type0) as [schema0|] eqn:Er; cbn [bind] in Hrun; [|discriminate].
  destruct (check_declared schema0 fs0) as [[]|e] eqn:Ec; cbn [bind] in Hrun; [|discriminate].
  destruct Hin as [[= <- <-] | Hin].
  - exists schema0. split; [assumption | now apply check_declared_ok_inv].
  - now apply IH.
Qed.

(** X19. A fieldset map the fields accessor returns is the extracted
    group with every value as a list, and each of its types is resolved by
    the registry to a schema that declares every field listed for it. *)
Theorem fields_result_postcondition
    (registry : Registry) (qs : querystring_t) (r : dict (list string)) :
  fields registry qs = Ok r ->
  (exists items, _get_key_values "fields" qs = Ok items /\ r = normalized items)
  /\ forall type_ fs, In (type_, fs) r ->
       exists schema, registry type_ = Some schema
                      /\ forall f, In f fs -> mem f (_declared_fields schema) = true.
Proof.
  unfold fields. intros Hrun.
  destruct (_get_key_values "fields" qs) as [items|e]; cbn [bind] in Hrun; [|discriminate].
  fold (normalized items) in Hrun.
  destruct (check_fields registry (normalized items)) as [[]|e] eqn:Hc; cbn [bind] in Hrun;
    [|discriminate].
  injection Hrun as <-. split; [eauto|]. now apply check_fields_ok_inv.
Qed.

Lemma fields_result_postcondition_witness :
  (exists items, _get_key_values "fields" [("fields[user]", "email")] = Ok items
                 /\ [("user", ["email"])] = normalized items)
  /\ forall type_ fs, In (type_, fs) [("user", ["email"])] ->
       exists schema, user_registry type_ = Some schema
                      /\ forall f, In f fs -> mem f (_declared_fields schema) = true.
Proof.
  apply (fields_result_postcondition user_registry [("fields[user]", "email")]). reflexivity.
Defined.

(** ** A querystring without managed keys *)

Lemma prefix_app_left a b s :
  String.prefix (a ++ b)%string s = true -> String.prefix a s = true.
Proof.
  revert s. induction a as [|x a IH]; intros s H; [now destruct s|].
  destruct s as [|y s]; [discriminate|].
  change (String.prefix (String x a) (String y s))
    with (if ascii_dec x y then String.prefix a s else false).
  change (String.prefix (String x a ++ b) (String y s))
    with (if ascii_dec x y then String.prefix (a ++ b) s else false) in H.
  destruct (ascii_dec x y); [now apply IH | discriminate].
Qed.

Lemma dict_get_In {V} k (v : V) d : dict_get k d = Some v -> In (k, v) d.
Proof.
  induction d as [|[k0 v0] r IH]; simpl; [discriminate|].
  destruct (String.eqb_spec k0 k) as [->|Hne].
  - intros [= ->]. now left.
  - intros H. right. now apply IH.
Qed.

Lemma unmanaged_key key :
  Py.startswith_any MANAGED_KEYS key = false ->
  Py.startswith "filter" key = false /\ Py.startswith "page" key = false
  /\ Py.startswith "fields" key = false /\ Py.startswith "sort" key = false
  /\ Py.startswith "include" key = false.
Proof.
  unfold Py.startswith_any, MANAGED_KEYS. cbn [existsb]. intros H.
  repeat (apply orb_false_iff in H as [? H]). auto.
Qed.

Lemma unmanaged_get (name : string) (qs : querystring_t) :
  (forall kv, In kv qs -> Py.startswith name (fst kv) = false) ->
  filter (has_prefix name) qs = [] /\ dict_get name qs = None.
Proof.
  intros H. split; [now apply filter_none|].
  destruct (dict_get name qs) as [v|] eqn:E; [|reflexivity].
  apply dict_get_In in E. apply H in E. cbn [fst] in E.
  unfold Py.startswith in E. exfalso. clear - E. revert E.
  induction name as [|x name IH]; [discriminate|].
  change (String.prefix (String x name) (String x name))
    with (if ascii_dec x x then String.prefix name name else false).
  destruct (ascii_dec x x); [exact IH | congruence].
Qed.

(** X20. On a querystring none of whose keys starts with a managed name,
    whatever the configuration, the schema, the registry and the decoder:
    filters, fields, sorting and include return their empty results, the
    managed querystring is empty, and pagination is the policy check on
    the default size alone. *)
Theorem unmanaged_querystring_defaults
    (cfg : Config) (schema : Schema) (registry : Registry)
    (loads : string -> result json) (qs : querystring_t) :
  (forall kv, In kv qs -> managed kv = false) ->
  filters loads qs = Ok []
  /\ fields registry qs = Ok []
  /\ sorting schema qs = Ok []
  /\ include cfg qs = Ok []
  /\ querystring qs = Ok []
  /\ pagination cfg qs = check_page_policy cfg [("size", config_get (PAGE_SIZE cfg) 30%Z)].
Proof.
  intros Hun.
  assert (Hkeys : forall kv, In kv qs ->
            Py.startswith "filter" (fst kv) = false /\ Py.startswith "page" (fst kv) = false
            /\ Py.startswith "fields" (fst kv) = false /\ Py.startswith "sort" (fst kv) = false
            /\ Py.startswith "include" (fst kv) = false).
  { intros kv Hin. apply unmanaged_key. now apply Hun. }
  assert (Hbr : forall kv, In kv qs -> Py.startswith "filter[" (fst kv) = false).
  { intros kv Hin. destruct (Py.startswith "filter[" (fst kv)) eqn:E; [|reflexivity].
    apply (prefix_app_left "filter" "[") in E. destruct (Hkeys kv Hin) as [Hf _].
    unfold Py.startswith in Hf. congruence. }
  destruct (unmanaged_get "filter" qs) as [_ Hfilter]; [intros; now apply Hkeys|].
  destruct (unmanaged_get "page" qs) as [Hpage _]; [intros; now apply Hkeys|].
  destruct (unmanaged_get "fields" qs) as [Hfields _]; [intros; now apply Hkeys|].
  destruct (unmanaged_get "sort" qs) as [_ Hsort]; [intros; now apply Hkeys|].
  destruct (unmanaged_get "include" qs) as [_ Hinclude]; [intros; now apply Hkeys|].
  destruct (unmanaged_get "filter[" qs Hbr) as [Hgroup _].
  repeat split.
  - unfold filters. now rewrite Hfilter, get_key_values_filter, Hgroup.
  - unfold fields. now rewrite get_key_values_filter, Hfields.
  - unfold sorting. now rewrite Hsort.
  - unfold include. rewrite Hinclude. now destruct (MAX_INCLUDE_DEPTH cfg).
  - rewrite querystring_without_filter_group by exact Hbr.
    now rewrite filter_none.
  - unfold pagination. now rewrite get_key_values_filter, Hpage.
Qed.

Lemma unmanaged_querystring_defaults_witness :
  filters Json.decoder [("utm_source", "mail"); ("lang", "en")] = Ok []
  /\ fields user_registry [("utm_source", "mail"); ("lang", "en")] = Ok []
  /\ sorting post_schema [("utm_source", "mail"); ("lang", "en")] = Ok []
  /\ include default_config [("utm_source", "mail"); ("lang", "en")] = Ok []
  /\ querystring [("utm_source", "mail"); ("lang", "en")] = Ok []
  /\ pagination default_config [("utm_source", "mail"); ("lang", "en")]
     = check_page_policy default_config [("size", config_get (PAGE_SIZE default_config) 30%Z)].
Proof.
  apply (unmanaged_querystring_defaults default_config post_schema user_registry Json.decoder
           [("utm_source", "mail"); ("lang", "en")]).
  intros kv [<- | [<- | []]]; reflexivity.
Defined.
